(** * A validated repository over DynamoDB and its condition-expression compiler

    Shallow embedding of [src/lib/expressions.ts] and [src/lib/repository.ts].

    - [Expressions]: the pure compiler from a record of attribute
      expressions to a condition string and its [ExpressionAttributeValues].
    - [Repository]: the schema-bound wrapper around the document client,
      written in a state-and-exception monad over the external world
      (the table store and whatever state the schema's default generators
      draw from). *)

From Stdlib Require Import Ascii String.
From stdpp Require Import gmap strings list fin_maps pretty.

Open Scope string_scope.
Open Scope list_scope.

(** ** src/lib/expressions.ts *)

Module Expressions.

Section Expressions.

(** [number] payloads are carried through the compiler and never inspected,
    so the JavaScript number type stays abstract. *)
Context {number : Type}.

(** [type Value = string | number | boolean] *)
Inductive Value : Type :=
| VString (s : string)
| VNumber (n : number)
| VBoolean (b : bool).

(** What an index into an array, and hence a bound parameter, can hold:
    indexing past the end of a JavaScript array gives [undefined]. *)
Inductive JsValue : Type :=
| undefined
| val (v : Value).

#[export] Instance Value_eq_dec `{EqDecision number} : EqDecision Value.
Proof. solve_decision. Defined.

#[export] Instance JsValue_eq_dec `{EqDecision number} : EqDecision JsValue.
Proof. solve_decision. Defined.

(** [type Expression = Value | [Operator, Value] | ["between", Value, Value]].

    The array forms are one constructor: the head is the operator tag, a
    string, and [rest] holds the elements from index 1 on.  TypeScript
    erases the tuple types, so neither the tag nor the length is checked
    when the compiler runs; both are left free here. *)
Inductive Expression : Type :=
| EValue (v : Value)
| EArray (operator : string) (rest : list Value).

(** [expr[i]], for [i >= 1], on an array expression whose elements after the
    tag are [rest]. *)
Definition element (rest : list Value) (i : nat) : JsValue :=
  match rest !! (i - 1) with
  | Some v => val v
  | None => undefined
  end.

(** [const operator = expr instanceof Array ? expr[0] : "="] *)
Definition operator_of (expr : Expression) : string :=
  match expr with
  | EArray operator _ => operator
  | EValue _ => "="
  end.

(** [const value = expr instanceof Array ? expr[1] : expr] *)
Definition value_of (expr : Expression) : JsValue :=
  match expr with
  | EArray _ rest => element rest 1
  | EValue v => val v
  end.

(** [(expr as Value[])[i]]. It is evaluated in the [between] case only,
    where [expr] is an array: the operator of a scalar is [=]. *)
Definition element_of (expr : Expression) (i : nat) : JsValue :=
  match expr with
  | EArray _ rest => element rest i
  | EValue _ => undefined
  end.

Definition toExpression (key : string) (expr : Expression) : string :=
  let operator := operator_of expr in
  if decide (operator = "between") then
    key +:+ " between :" +:+ key +:+ "min and :" +:+ key +:+ "max"
  else if decide (operator = "begins_with") then
    "begins_with(" +:+ key +:+ ", :" +:+ key +:+ ")"
  else
    key +:+ " " +:+ operator +:+ " :" +:+ key.

Definition toExpressionValue (key : string) (expr : Expression)
  : gmap string JsValue :=
  let operator := operator_of expr in
  let value := value_of expr in
  if decide (operator = "between") then
    <[ ":" +:+ key +:+ "max" := element_of expr 2 ]>
      (<[ ":" +:+ key +:+ "min" := element_of expr 1 ]> ∅)
  else
    {[ ":" +:+ key := value ]}.

(** [Array.prototype.join] on an array of strings. *)
Fixpoint join (sep : string) (parts : list string) : string :=
  match parts with
  | [] => ""
  | [part] => part
  | part :: rest => part +:+ sep +:+ join sep rest
  end.

(** A [Record<string, Expression>] argument is given by what
    [Object.entries] returns for it: its own properties as key/value pairs
    in property order. Both passes of [toKeyConditionExpression] iterate
    that same list. *)
Definition Entries : Type := list (string * Expression).

(** The object literal [{ values, expression }]. [expression] is a string
    when [toKeyConditionExpression] builds it and may be [undefined]
    ([None]) when [toFilterConditionExpression] does. *)
Record Condition (E : Type) : Type := {
  values : gmap string JsValue;
  expression : E;
}.
Global Arguments values {E} _.
Global Arguments expression {E} _.

(** [(values, current) => ({ ...values, ...current })]: the properties of
    [current] are spread last and replace those of [values]. *)
Definition spread (values current : gmap string JsValue)
  : gmap string JsValue :=
  current ∪ values.

Definition toKeyConditionExpression (keys : Entries) : Condition string :=
  let values :=
    foldl spread ∅ (map (λ '(key, expr), toExpressionValue key expr) keys) in
  let expression :=
    join " and " (map (λ '(key, expr), toExpression key expr) keys) in
  {| values := values; expression := expression |}.

(** The entry does not synthesise the parameter name [parameter]. *)
Definition unbound (parameter : string) (entry : string * Expression)
  : Prop :=
  toExpressionValue entry.1 entry.2 !! parameter = None.

(** [filter?: Record<string, Expression>]: [None] is the absent argument.
    An object, even an empty one, is truthy, so [!filter] holds for [None]
    only. *)
Definition toFilterConditionExpression (filter : option Entries)
  : Condition (option string) :=
  match filter with
  | None => {| expression := None; values := ∅ |}
  | Some filter =>
      let c := toKeyConditionExpression filter in
      {| values := values c; expression := Some (expression c) |}
  end.

(** [params: Record<string, any>], given by its entries; each step of the
    reduction is [{ ...hash, [key]: value }]. *)
Definition toExpressionAttributeValues {A : Type} (params : list (string * A))
  : gmap string A :=
  foldl (λ hash '(key, value), <[ key := value ]> hash) ∅
    (map (λ '(key, value), (":" +:+ key, value)) params).

End Expressions.

Arguments Value : clear implicits.
Arguments JsValue : clear implicits.
Arguments Expression : clear implicits.
Arguments Entries : clear implicits.
Arguments Condition : clear implicits.

End Expressions.

(** ** src/lib/repository.ts *)

Module Repository.

Import Expressions.

Section Repository.

Context {number : Type}.

(** What the repository handles without looking inside:
    - [Item]: a JavaScript value, be it the [z.input<T>] handed to [put],
      the [z.output<T>] of the schema or a raw stored record;
    - [Key]: the [Record<string, string | number>] argument of [get];
    - [Issues]: what a [ZodError] carries;
    - [ServiceException]: whatever the document client throws;
    - [Store]: the state of the tables behind the document client;
    - [Entropy]: the state the schema's callbacks draw from (a default
      such as [() => uuid()] reads and advances it). *)
Context {Item Key Issues ServiceException Store Entropy : Type}.

(** [JSON.stringify] on the key record of [get]. *)
Variable JSON_stringify : Key → string.

(** What the methods throw. The [ZodError] of [schema.parse] is the schema
    validation error. *)
Inductive Error : Type :=
| NotFoundError (message : string)
| ZodError (issues : Issues)
| ServiceError (e : ServiceException).

Record World : Type := {
  store : Store;
  entropy : Entropy;
}.

Definition set_store (s : Store) (w : World) : World :=
  {| store := s; entropy := entropy w |}.

Definition set_entropy (g : Entropy) (w : World) : World :=
  {| store := store w; entropy := g |}.

(** An [async] computation: it runs against the world and either throws
    (rejects) or returns (resolves), leaving a new world. *)
Definition Async (A : Type) : Type := World → (Error + A) * World.

Definition ret {A} (x : A) : Async A := λ w, (inr x, w).

Definition throw {A} (e : Error) : Async A := λ w, (inl e, w).

Definition bind {A B} (m : Async A) (f : A → Async B) : Async B :=
  λ w, match m w with
       | (inl e, w') => (inl e, w')
       | (inr x, w') => f x w'
       end.

Notation "'let!' x ':=' m 'in' k" := (bind m (λ x, k))
  (at level 10, x name, m at level 100, k at level 200, only parsing).

(** [schema.parse]: returns the output or throws a [ZodError]. *)
Definition ZodSchema : Type := Item → Entropy → (Issues + Item) * Entropy.

(** *** The document client *)

Record PutCommandInput : Type := {
  put_Item : Item;
  put_TableName : string;
}.

Record GetCommandInput : Type := {
  get_TableName : string;
  get_Key : Key;
}.

Record ScanCommandInput : Type := {
  scan_TableName : string;
}.

Record QueryCommandInput : Type := {
  query_TableName : string;
  KeyConditionExpression : string;
  ExpressionAttributeValues : gmap string (JsValue number);
  IndexName : option string;
}.

(** A paginator is an async iterable of pages. Asking for the next page
    reads the store as it is at that moment and ends the iteration, throws,
    or hands over a page (whose [Items] may be [undefined]) and the
    paginator for the pages after it. Every paginator ends. *)
Inductive Paginator : Type :=
| Pages (next : Store → PageResult)
with PageResult : Type :=
| PageDone (s : Store)
| PageThrow (e : ServiceException) (s : Store)
| Page (Items : option (list Item)) (s : Store) (rest : Paginator).

Scheme Paginator_mut := Induction for Paginator Sort Prop
  with PageResult_mut := Induction for PageResult Sort Prop.

(** The client, with [paginateScan] and [paginateQuery] of the library as
    applied to it. *)
Record DynamoDBDocument : Type := {
  dynamodb_put : PutCommandInput → Store → (ServiceException + unit) * Store;
  dynamodb_get :
    GetCommandInput → Store → (ServiceException + option Item) * Store;
  paginateScan : ScanCommandInput → Paginator;
  paginateQuery : QueryCommandInput → Paginator;
}.

(** [await] on a call of the document client. *)
Definition await {A} (call : Store → (ServiceException + A) * Store)
  : Async A :=
  λ w, match call (store w) with
       | (inl e, s) => (inl (ServiceError e), set_store s w)
       | (inr x, s) => (inr x, set_store s w)
       end.

(** *** Async generators *)

(** An async generator is resumed against the current world and then
    returns, throws, or yields a value and suspends. *)
Inductive AsyncGenerator : Type :=
| Suspended (next : World → IteratorResult)
with IteratorResult : Type :=
| IterReturn (w : World)
| IterThrow (e : Error) (w : World)
| IterYield (value : Item) (w : World) (rest : AsyncGenerator).

Definition resume (g : AsyncGenerator) (w : World) : IteratorResult :=
  match g with Suspended next => next w end.

(** *** class Repository *)

Record Repository : Type := {
  dynamodb : DynamoDBDocument;
  tableName : string;
  schema : ZodSchema;
}.

Section Methods.

Variable this : Repository.

Definition parse (data : Item) : Async Item :=
  λ w, match schema this data (entropy w) with
       | (inl issues, g) => (inl (ZodError issues), set_entropy g w)
       | (inr output, g) => (inr output, set_entropy g w)
       end.

Definition put (data : Item) : Async Item :=
  let! parsed := parse data in
  let! _ := await (dynamodb_put (dynamodb this)
              {| put_Item := parsed; put_TableName := tableName this |}) in
  ret parsed.

Definition get (key : Key) : Async Item :=
  let! Item := await (dynamodb_get (dynamodb this)
                 {| get_TableName := tableName this; get_Key := key |}) in
  match Item with
  | None =>
      throw (NotFoundError ("Item not found in " +:+ tableName this
                            +:+ " for keys " +:+ JSON_stringify key))
  | Some Item => parse Item
  end.

(** [for (const item of items) { yield this.parse(item); }], followed
    by [k]. *)
Fixpoint for_of (items : list Item) (k : AsyncGenerator)
  : AsyncGenerator :=
  match items with
  | [] => k
  | item :: items =>
      Suspended (λ w,
        match parse item w with
        | (inl e, w') => IterThrow e w'
        | (inr parsed, w') => IterYield parsed w' (for_of items k)
        end)
  end.

(** [for await (const page of paginator) { for (const item of
    page.Items ?? []) { yield this.parse(item); } }] *)
Fixpoint for_await (paginator : Paginator) : AsyncGenerator :=
  match paginator with
  | Pages next =>
      Suspended (λ w,
        match next (store w) with
        | PageDone s => IterReturn (set_store s w)
        | PageThrow e s => IterThrow (ServiceError e) (set_store s w)
        | Page Items s rest =>
            resume (for_of (default [] Items) (for_await rest))
                   (set_store s w)
        end)
  end.

Definition scan : AsyncGenerator :=
  let paginator :=
    paginateScan (dynamodb this) {| scan_TableName := tableName this |} in
  for_await paginator.

Record QueryParams : Type := {
  index : option string;
}.

Definition query (keys : Entries number) (params : option QueryParams)
  : AsyncGenerator :=
  let c := toKeyConditionExpression keys in
  let paginator :=
    paginateQuery (dynamodb this)
      {| query_TableName := tableName this;
         KeyConditionExpression := expression c;
         ExpressionAttributeValues := values c;
         IndexName := params ≫= index |} in
  for_await paginator.

(** *** Observing a generator *)

Inductive Completion : Type :=
| Returned
| Threw (e : Error).

(** What a consumer that iterates to the end has seen: the values it
    received, in order, and how the iteration ended. *)
Record Trace : Type := {
  yielded : list Item;
  completion : Completion;
  final : World;
}.

(** [for await (const i of iterator) { items.push(i); }] *)
Fixpoint consume (iterator : AsyncGenerator) (w : World) : Trace :=
  match iterator with
  | Suspended next =>
      match next w with
      | IterReturn w' =>
          {| yielded := []; completion := Returned; final := w' |}
      | IterThrow e w' =>
          {| yielded := []; completion := Threw e; final := w' |}
      | IterYield value w' rest =>
          let t := consume rest w' in
          {| yielded := value :: yielded t;
             completion := completion t;
             final := final t |}
      end
  end.

(** [toArray] of the examples: the promise of the collected items, which
    rejects when the iteration throws. *)
Definition toArray (iterator : AsyncGenerator) : Async (list Item) :=
  λ w, let t := consume iterator w in
       match completion t with
       | Returned => (inr (yielded t), final t)
       | Threw e => (inl e, final t)
       end.

(** *** The contract of the lazy sequences, in the words of the
    specification

    The raw items a paginator delivers when it is iterated to its end,
    page after page, and the exception that stopped it, if any. *)
Fixpoint raw_items (paginator : Paginator) (s : Store)
  : list Item * option ServiceException :=
  match paginator with
  | Pages next =>
      match next s with
      | PageDone _ => ([], None)
      | PageThrow e _ => ([], Some e)
      | Page Items s' rest =>
          let '(items, e) := raw_items rest s' in
          (default [] Items ++ items, e)
      end
  end.

(** Validate raw items one after the other, stopping at the first one
    the schema rejects: the outputs so far, the rejection, if any, and
    the entropy left. *)
Fixpoint validate_each (items : list Item) (g : Entropy)
  : list Item * option Issues * Entropy :=
  match items with
  | [] => ([], None, g)
  | item :: items =>
      match schema this item g with
      | (inl issues, g') => ([], Some issues, g')
      | (inr output, g') =>
          let '(outputs, rejection, g'') := validate_each items g' in
          (output :: outputs, rejection, g'')
      end
  end.

(** Each item is validated before it is yielded, and a rejected item
    aborts the sequence with the [ZodError]; what was yielded before
    stays yielded. *)
Definition validated_sequence (paginator : Paginator) (w : World)
  : list Item * Completion :=
  let '(items, e) := raw_items paginator (store w) in
  let '(outputs, rejection, _) := validate_each items (entropy w) in
  (outputs,
   match rejection, e with
   | Some issues, _ => Threw (ZodError issues)
   | None, Some e => Threw (ServiceError e)
   | None, None => Returned
   end).

(** [item] is an output of the bound schema for the raw value [raw]. *)
Definition validated (raw item : Item) : Prop :=
  ∃ g g', schema this raw g = (inr item, g').

(** A result that, when it is a value, is the validated form of [raw]. *)
Definition validated_result (raw : Item) (r : Error + Item) : Prop :=
  match r with
  | inr item => validated raw item
  | inl _ => True
  end.

(** [iterator], run over the pages of [paginator], yields the validated
    sequence: what a consumer receives is, one for one, the validated
    form of the first raw items, and the iteration ends as the contract
    says. *)
Definition validates_before_yielding
    (iterator : AsyncGenerator) (paginator : Paginator) : Prop :=
  ∀ w,
    let t := consume iterator w in
    (yielded t, completion t) = validated_sequence paginator w
    ∧ Forall2 validated
        (take (length (yielded t)) (raw_items paginator (store w)).1)
        (yielded t).

End Methods.

(** The storage model of the round trip: an item the client has accepted
    for writing is what a lookup of its key attributes, [keyOf], finds
    next. *)
Definition read_your_writes
    (client : DynamoDBDocument) (keyOf : Item → Key) : Prop :=
  ∀ table item s s1,
    dynamodb_put client {| put_Item := item; put_TableName := table |} s
      = (inr (), s1) →
    ∃ s2,
      dynamodb_get client {| get_TableName := table; get_Key := keyOf item |} s1
        = (inr (Some item), s2).

End Repository.

End Repository.

(** ** A store and schemas to run the repository on

    A document client over tables held in memory and a small model of
    [z.object], used to evaluate the repository on concrete inputs. *)

Module InMemory.

Import Expressions Repository.

(** Items are flat records of scalars. *)
Definition Item : Type := gmap string (Value Z).

(** A key record, as its entries in property order. *)
Definition Key : Type := list (string * Value Z).

(** *** JSON.stringify on keys *)

Definition quote_char : ascii := ascii_of_nat 34.
Definition backslash : ascii := ascii_of_nat 92.

Definition hex_digit (n : nat) : ascii :=
  ascii_of_nat (if decide (n < 10)%nat then 48 + n else 87 + n).

(** [QuoteJSONString]: the quote, the backslash and the control characters
    are escaped. *)
Definition escape_char (c : ascii) : string :=
  let n := nat_of_ascii c in
  if decide (c = quote_char) then String backslash (String quote_char "")
  else if decide (c = backslash) then String backslash (String backslash "")
  else if decide (n = 8)%nat then String backslash "b"
  else if decide (n = 9)%nat then String backslash "t"
  else if decide (n = 10)%nat then String backslash "n"
  else if decide (n = 12)%nat then String backslash "f"
  else if decide (n = 13)%nat then String backslash "r"
  else if decide (n < 32)%nat then
    String backslash
      ("u00" +:+ String (hex_digit (n / 16)) (String (hex_digit (n mod 16)) ""))
  else String c "".

Fixpoint escape (s : string) : string :=
  match s with
  | "" => ""
  | String c s => escape_char c +:+ escape s
  end.

Definition quote (s : string) : string :=
  String quote_char (escape s) +:+ String quote_char "".

Definition stringify_value (v : Value Z) : string :=
  match v with
  | VString s => quote s
  | VNumber n => pretty n
  | VBoolean b => if b then "true" else "false"
  end.

Definition JSON_stringify (key : Key) : string :=
  "{" +:+ join "," (map (λ '(name, v), quote name +:+ ":" +:+ stringify_value v) key)
  +:+ "}".

(** *** The document client *)

(** The rows of all tables, each with the name of its table. *)
Definition Store : Type := list (string * Item).

(** Every table has the partition key [pk] and the sort key [sk]. *)
Definition key_schema : list string := ["pk"; "sk"].

(** The key attributes of an item. *)
Definition keyOf (item : Item) : Key :=
  omap (λ name, (λ v, (name, v)) <$> item !! name) key_schema.

Definition has_key (table : string) (key : Key) (row : string * Item) : bool :=
  bool_decide (row.1 = table
               ∧ list_to_map (keyOf row.2) =@{Item} list_to_map key).

Definition rows_of (table : string) (s : Store) : list Item :=
  map snd (filter (λ row, row.1 = table) s).

Definition mem_put (input : PutCommandInput (Item := Item)) (s : Store)
  : (string + unit) * Store :=
  let item := put_Item input in
  if decide (length (keyOf item) = length key_schema) then
    (inr (),
     (put_TableName input, item)
       :: filter (λ row, ¬ has_key (put_TableName input) (keyOf item) row) s)
  else
    (inl "ValidationException", s).

Definition mem_get (input : GetCommandInput (Key := Key)) (s : Store)
  : (string + option Item) * Store :=
  (inr (snd <$> find (has_key (get_TableName input) (get_Key input)) s), s).

(** Split a list of rows into pages of [size] rows. *)
Fixpoint pages_of (size : nat) (page rows : list Item) : list (list Item) :=
  match rows with
  | [] => [reverse page]
  | row :: rows =>
      if decide (S (length page) = size) then
        reverse (row :: page) :: pages_of size [] rows
      else pages_of size (row :: page) rows
  end.

Fixpoint serve (pages : list (list Item))
  : Paginator (Item := Item) (ServiceException := string) (Store := Store) :=
  match pages with
  | [] => Pages (λ s, PageDone s)
  | page :: pages => Pages (λ s, Page (Some page) s (serve pages))
  end.

(** Pages of two rows, of the table as it is at the first request. *)
Definition mem_paginate (select : Item → bool) (table : string)
  : Paginator (Item := Item) (ServiceException := string) (Store := Store) :=
  Pages (λ s,
    match pages_of 2 [] (filter (λ row, select row) (rows_of table s)) with
    | [] => PageDone s
    | page :: pages => Page (Some page) s (serve pages)
    end).

Definition mem_paginateScan (input : ScanCommandInput) :=
  mem_paginate (λ _, true) (scan_TableName input).

(** Only the partition key condition [pk = :pk] is evaluated. *)
Definition mem_paginateQuery (input : QueryCommandInput (number := Z)) :=
  mem_paginate
    (λ row, bool_decide (val <$> row !! "pk"
                         = ExpressionAttributeValues input !! ":pk"))
    (query_TableName input).

Definition document : DynamoDBDocument :=
  {| dynamodb_put := mem_put;
     dynamodb_get := mem_get;
     paginateScan := mem_paginateScan;
     paginateQuery := mem_paginateQuery |}.

(** *** Schemas *)

Inductive ZodType : Type := z_string | z_number | z_boolean.

Definition has_type (t : ZodType) (v : Value Z) : bool :=
  match t, v with
  | z_string, VString _ | z_number, VNumber _ | z_boolean, VBoolean _ => true
  | _, _ => false
  end.

(** [z.object(shape)]: the issues are the names of the properties that are
    missing or of the wrong type; the output keeps the properties of the
    shape and strips the others. *)
Definition z_object (shape : list (string * ZodType))
  : ZodSchema (Item := Item) (Issues := list string) (Entropy := unit) :=
  λ data g,
    let issues :=
      omap (λ '(name, t),
              match data !! name with
              | Some v => if has_type t v then None else Some name
              | None => Some name
              end) shape in
    match issues with
    | [] => (inr (filter (λ '(name, _), name ∈ shape.*1) data), g)
    | _ => (inl issues, g)
    end.

(** [schema.transform(f)] *)
Definition z_transform
    (schema : ZodSchema (Item := Item) (Issues := list string) (Entropy := unit))
    (f : Item → Item)
  : ZodSchema (Item := Item) (Issues := list string) (Entropy := unit) :=
  λ data g,
    match schema data g with
    | (inr output, g') => (inr (f output), g')
    | (inl issues, g') => (inl issues, g')
    end.

(** The schema of the first repository of the examples. *)
Definition post_schema :=
  z_object [("pk", z_string); ("sk", z_string); ("userId", z_string);
            ("content", z_string); ("likes", z_number)].

Definition posts : Repository :=
  {| dynamodb := document; tableName := "repository"; schema := post_schema |}.

(** A schema whose transform counts a view each time an item goes through it:
    [z.object({...}).transform((item) => ({ ...item, views: item.views + 1 }))]. *)
Definition add_view (item : Item) : Item :=
  match item !! "views" with
  | Some (VNumber n) => <["views" := VNumber (n + 1)%Z]> item
  | _ => item
  end.

Definition page_schema :=
  z_transform (z_object [("pk", z_string); ("sk", z_string); ("views", z_number)])
              add_view.

Definition pages : Repository :=
  {| dynamodb := document; tableName := "repository"; schema := page_schema |}.

Definition post5 : Item :=
  {[ "pk" := VString "post5"; "sk" := VString "post";
     "userId" := VString "user5"; "content" := VString "#postlyf";
     "likes" := VNumber 3%Z ]}.

Definition home_page : Item :=
  {[ "pk" := VString "home"; "sk" := VString "page"; "views" := VNumber 0%Z ]}.

(** [post5] without its [likes]. *)
Definition draft : Item := delete "likes" post5.

(** A row of the table that lost its [likes]. *)
Definition torn_row : Item := <[ "sk" := VString "torn" ]> draft.

Definition post6 : Item := <[ "pk" := VString "post6" ]> post5.

Definition empty_world : World :=
  {| store := ([] : Store); entropy := () |}.

(** A table whose second row does not fit the schema of the posts. *)
Definition torn_table : World :=
  {| store := [("repository", post5); ("repository", torn_row);
               ("repository", post6)];
     entropy := () |}.

(** The world after [post5] has been stored. *)
Definition one_post : World :=
  {| store := [("repository", post5)]; entropy := () |}.

End InMemory.


(** ** src/examples/repository.test.ts

    The repositories and schemas of the examples. Items are flat records of
    scalars and a key record is given by its entries. The schemas are built
    with a model of the three combinators of zod they use: [z.object] over
    [z.string()], [z.number()] and [z.boolean()], [.default] and
    [.transform]. *)

Module Examples.

Import Expressions Repository.

Section Zod.

Context {number Entropy : Type}.

Local Abbreviation Item := (gmap string (Value number)).

Inductive ZodType : Type := z_string | z_number | z_boolean.

(** The numbers [z.number()] accepts: not [NaN], and, with the version of
    zod, not the infinities either. *)
Variable is_number : number → bool.

Definition has_type (t : ZodType) (v : Value number) : bool :=
  match t, v with
  | z_string, VString _ | z_boolean, VBoolean _ => true
  | z_number, VNumber n => is_number n
  | _, _ => false
  end.

(** A property of a shape: its type and, with [.default(d)], what stands in
    for an absent input. *)
Record ZodProperty : Type := {
  property_type : ZodType;
  property_default : option (Entropy → Value number * Entropy);
}.

Definition required (t : ZodType) : ZodProperty :=
  {| property_type := t; property_default := None |}.

Definition z_default (t : ZodType) (d : Entropy → Value number * Entropy)
  : ZodProperty :=
  {| property_type := t; property_default := Some d |}.

(** One property: an absent input takes the default, if there is one, and
    what is then there has to be of the type. [None] is an issue. *)
Definition parse_property
    (property : ZodProperty) (input : option (Value number)) (g : Entropy)
  : option (Value number) * Entropy :=
  let '(input, g) :=
    match input, property_default property with
    | None, Some d => let '(v, g') := d g in (Some v, g')
    | _, _ => (input, g)
    end in
  match input with
  | Some v => if has_type (property_type property) v then (Some v, g)
              else (None, g)
  | None => (None, g)
  end.

(** The properties of the shape are parsed in order, all of them; the
    issues are the names of those that failed and the output has the
    others. Properties of the input that the shape does not name are
    stripped. *)
Fixpoint parse_shape
    (shape : list (string * ZodProperty)) (data : Item) (g : Entropy)
  : list string * Item * Entropy :=
  match shape with
  | [] => ([], ∅, g)
  | (name, property) :: shape =>
      let '(v, g) := parse_property property (data !! name) g in
      let '(issues, output, g) := parse_shape shape data g in
      match v with
      | Some v => (issues, <[ name := v ]> output, g)
      | None => (name :: issues, output, g)
      end
  end.

Definition z_object (shape : list (string * ZodProperty))
  : ZodSchema (Item := Item) (Issues := list string) (Entropy := Entropy) :=
  λ data g,
    let '(issues, output, g') := parse_shape shape data g in
    match issues with
    | [] => (inr output, g')
    | _ => (inl issues, g')
    end.

(** [schema.transform(f)]: [f] runs on the output when there is no issue. *)
Definition z_transform
    (schema : ZodSchema (Item := Item) (Issues := list string)
                (Entropy := Entropy))
    (f : Item → Item)
  : ZodSchema (Item := Item) (Issues := list string) (Entropy := Entropy) :=
  λ data g,
    match schema data g with
    | (inr output, g') => (inr (f output), g')
    | (inl issues, g') => (inl issues, g')
    end.

(** [{ ...item, [name]: v }]. A property that holds [undefined] reads as an
    absent one. *)
Definition assign (name : string) (v : option (Value number)) (item : Item)
  : Item :=
  match v with
  | Some v => <[ name := v ]> item
  | None => delete name item
  end.

(** [Number.prototype.toString], for template literals. *)
Variable Number_toString : number → string.

(** What [${v}] puts into a template literal. *)
Definition template (v : option (Value number)) : string :=
  match v with
  | Some (VString s) => s
  | Some (VNumber n) => Number_toString n
  | Some (VBoolean b) => if b then "true" else "false"
  | None => "undefined"
  end.

(** [uuid] of the package of that name, drawing from the entropy. *)
Variable uuid : Entropy → string * Entropy.

(** [() => uuid()] *)
Definition default_uuid (g : Entropy) : Value number * Entropy :=
  let '(id, g') := uuid g in (VString id, g').

End Zod.

Definition tableName : string := "repository".

(** *** describe("using classes to capture logic") *)

Module CaptureLogic.

Section CaptureLogic.

Context {number ServiceException Store Entropy : Type}.

Local Abbreviation Item := (gmap string (Value number)).
Local Abbreviation Key := (list (string * Value number)).
Local Abbreviation Document :=
  (DynamoDBDocument (number := number) (Item := Item) (Key := Key)
     (ServiceException := ServiceException) (Store := Store)).
Local Abbreviation Repo :=
  (Repository (number := number) (Item := Item) (Key := Key)
     (Issues := list string) (ServiceException := ServiceException)
     (Store := Store) (Entropy := Entropy)).
Local Abbreviation Generator :=
  (AsyncGenerator (Item := Item) (Issues := list string)
     (ServiceException := ServiceException) (Store := Store)
     (Entropy := Entropy)).
Local Abbreviation Promise :=
  (Async (Issues := list string) (ServiceException := ServiceException)
     (Store := Store) (Entropy := Entropy)).

Variable JSON_stringify : Key → string.
Variable is_number : number → bool.

(** The schema of the outer [describe]. *)
Definition schema
  : ZodSchema (Item := Item) (Issues := list string) (Entropy := Entropy) :=
  z_object is_number [("pk", required z_string); ("sk", required z_string);
            ("userId", required z_string); ("content", required z_string);
            ("likes", required z_number)].

(** [class PostsRepository extends Repository<typeof schema>]; the
    constructor is [super(dynamodb, tableName, schema)]. *)
Definition PostsRepository (dynamodb : Document) : Repo :=
  Build_Repository dynamodb tableName schema.

Definition getPost (this : Repo) (postId : string) : Promise Item :=
  get JSON_stringify this [("pk", VString postId); ("sk", VString "post")].

Definition getCommentsByPostId (this : Repo) (postId : string)
  : Generator :=
  query this
    [("pk", EValue (VString postId));
     ("sk", EArray "begins_with" [VString "comment"])]
    None.

Definition getCommentsByUserId (this : Repo) (userId : string)
  : Generator :=
  query this
    [("userId", EValue (VString userId));
     ("sk", EArray "begins_with" [VString "comment"])]
    (Some {| index := Some "ByUser" |}).

End CaptureLogic.

End CaptureLogic.

(** *** describe("using Zod to handle key transforms for our items") *)

Module KeyTransforms.

Section KeyTransforms.

Context {number ServiceException Store Entropy : Type}.

Local Abbreviation Item := (gmap string (Value number)).
Local Abbreviation Key := (list (string * Value number)).
Local Abbreviation Document :=
  (DynamoDBDocument (number := number) (Item := Item) (Key := Key)
     (ServiceException := ServiceException) (Store := Store)).
Local Abbreviation Repo :=
  (Repository (number := number) (Item := Item) (Key := Key)
     (Issues := list string) (ServiceException := ServiceException)
     (Store := Store) (Entropy := Entropy)).
Local Abbreviation Generator :=
  (AsyncGenerator (Item := Item) (Issues := list string)
     (ServiceException := ServiceException) (Store := Store)
     (Entropy := Entropy)).
Local Abbreviation Promise :=
  (Async (Issues := list string) (ServiceException := ServiceException)
     (Store := Store) (Entropy := Entropy)).

Variable JSON_stringify : Key → string.
Variable is_number : number → bool.
Variable Number_toString : number → string.
Variable uuid : Entropy → string * Entropy.

Definition CommentSchema
  : ZodSchema (Item := Item) (Issues := list string) (Entropy := Entropy) :=
  z_transform
    (z_object is_number [("postId", required z_string);
               ("commentId", z_default z_string (default_uuid uuid));
               ("userId", required z_string);
               ("content", required z_string);
               ("likes", required z_number)])
    (λ item,
       assign "sk"
         (Some (VString ("comment#"
                         +:+ template Number_toString (item !! "commentId"))))
         (assign "pk" (item !! "postId") item)).

Definition CommentRepository (dynamodb : Document) : Repo :=
  Build_Repository dynamodb tableName CommentSchema.

Definition getCommentsByPostId (this : Repo) (postId : string)
  : Generator :=
  query this
    [("pk", EValue (VString postId));
     ("sk", EArray "begins_with" [VString "comment"])]
    None.

Definition getCommentsByUserId (this : Repo) (userId : string)
  : Generator :=
  query this
    [("userId", EValue (VString userId));
     ("sk", EArray "begins_with" [VString "comment"])]
    (Some {| index := Some "ByUser" |}).

Definition PostSchema
  : ZodSchema (Item := Item) (Issues := list string) (Entropy := Entropy) :=
  z_transform
    (z_object is_number [("postId", z_default z_string (default_uuid uuid));
               ("userId", required z_string);
               ("content", required z_string);
               ("likes", required z_number)])
    (λ item,
       assign "sk" (Some (VString "post"))
         (assign "pk" (item !! "postId") item)).

Definition PostsRepository (dynamodb : Document) : Repo :=
  Build_Repository dynamodb tableName PostSchema.

Definition getPost (this : Repo) (postId : string) : Promise Item :=
  get JSON_stringify this [("pk", VString postId); ("sk", VString "post")].

Definition getPostsByUserId (this : Repo) (userId : string)
  : Generator :=
  query this
    [("userId", EValue (VString userId)); ("sk", EValue (VString "post"))]
    (Some {| index := Some "ByUser" |}).

End KeyTransforms.

End KeyTransforms.

(** *** describe("modelling the User as an additional domain object") *)

Module Users.

Section Users.

Context {number ServiceException Store Entropy : Type}.

Local Abbreviation Item := (gmap string (Value number)).
Local Abbreviation Key := (list (string * Value number)).
Local Abbreviation Document :=
  (DynamoDBDocument (number := number) (Item := Item) (Key := Key)
     (ServiceException := ServiceException) (Store := Store)).
Local Abbreviation Repo :=
  (Repository (number := number) (Item := Item) (Key := Key)
     (Issues := list string) (ServiceException := ServiceException)
     (Store := Store) (Entropy := Entropy)).
Local Abbreviation Generator :=
  (AsyncGenerator (Item := Item) (Issues := list string)
     (ServiceException := ServiceException) (Store := Store)
     (Entropy := Entropy)).
Local Abbreviation Promise :=
  (Async (Issues := list string) (ServiceException := ServiceException)
     (Store := Store) (Entropy := Entropy)).

Variable JSON_stringify : Key → string.
Variable is_number : number → bool.
Variable uuid : Entropy → string * Entropy.

Definition UserSchema
  : ZodSchema (Item := Item) (Issues := list string) (Entropy := Entropy) :=
  z_transform
    (z_object is_number [("userId", z_default z_string (default_uuid uuid));
               ("name", required z_string);
               ("isAdmin", z_default z_boolean (λ g, (VBoolean false, g)))])
    (λ item,
       assign "sk" (Some (VString "user"))
         (assign "pk" (item !! "userId") item)).



End Users.

End Users.

(** The primary key of the table of the examples, [pk] (HASH) and [sk]
    (RANGE), as the key record of an item. *)
Definition primary_key {number} (item : gmap string (Value number))
  : list (string * Value number) :=
  omap (λ name, (λ v, (name, v)) <$> item !! name) ["pk"; "sk"].

End Examples.

(** ** More tables and repositories in memory *)

Module Scenarios.

Import Expressions Repository InMemory.

(** A repository whose schema asks for a [content] only, so that what it
    writes has no key. *)
Definition notes : Repository :=
  {| dynamodb := document; tableName := "repository";
     schema := z_object [("content", z_string)] |}.

Definition note : Item := {[ "content" := VString "hello" ]}.

(** A table of two posts that fit the schema. *)
Definition two_posts : World :=
  {| store := [("repository", post5); ("repository", post6)];
     entropy := () |}.

(** The paginator of a scan of the posts. *)
Definition scan_pages
  : Paginator (Item := Item) (ServiceException := string) (Store := Store) :=
  paginateScan document {| scan_TableName := "repository" |}.

(** The request for the first page of a scan of the posts. *)
Definition first_request (s : Store) : PageResult :=
  match pages_of 2 [] (filter (λ row : Item, true) (rows_of "repository" s)) with
  | [] => PageDone s
  | page :: pages => Page (Some page) s (serve pages)
  end.

(** Ids drawn from a counter. *)
Definition next_id (n : nat) : string * nat := ("id-" +:+ pretty n, S n).

(** Integers in decimal. *)
Definition decimal (n : Z) : string := pretty n.

(** Every integer is a number for [z.number()]. *)
Definition all_numbers (n : Z) : bool := true.

(** The post of the example that leaves the keys to the schema. *)
Definition new_post : Item :=
  {[ "userId" := VString "user3"; "content" := VString "my content";
     "likes" := VNumber 4%Z ]}.

(** That post as the schema of the posts puts it out, with the first id. *)
Definition stored_post : Item :=
  {[ "postId" := VString "id-0"; "userId" := VString "user3";
     "content" := VString "my content"; "likes" := VNumber 4%Z;
     "pk" := VString "id-0"; "sk" := VString "post" ]}.


(** An empty table and a counter that has drawn nothing. *)
Definition fresh_world : World (Store := Store) (Entropy := nat) :=
  {| store := []; entropy := 0%nat |}.

End Scenarios.

(** * Properties of the expression compiler *)

Module ExpressionsSpec.

Import Expressions.

Section Compiler.

Context {number : Type}.

Implicit Types (key name : string) (expr : Expression number).
Implicit Types (keys : Entries number) (v : Value number).
Implicit Types (rest : list (Value number)).

(** The two parameter names of a [between] clause differ. *)
Lemma min_max_distinct name :
  ":" +:+ name +:+ "min" ≠ ":" +:+ name +:+ "max".
Proof.
  simpl. intros H. injection H as H.
  induction name as [|c name IH]; simpl in H.
  - discriminate.
  - injection H as H. auto.
Qed.

(** A scalar never reaches the [between] case. *)
Lemma toExpressionValue_scalar key v :
  toExpressionValue key (EValue v) = {[ ":" +:+ key := val v ]}.
Proof. reflexivity. Qed.

Lemma toExpressionValue_between key rest :
  toExpressionValue key (EArray "between" rest)
  = {[ ":" +:+ key +:+ "min" := element rest 1;
       ":" +:+ key +:+ "max" := element rest 2 ]}.
Proof.
  unfold toExpressionValue. simpl operator_of.
  rewrite decide_True by reflexivity. simpl element_of.
  rewrite insert_insert_ne by (apply not_eq_sym, min_max_distinct).
  reflexivity.
Qed.

Lemma toExpressionValue_other key operator rest :
  operator ≠ "between" →
  toExpressionValue key (EArray operator rest)
  = {[ ":" +:+ key := element rest 1 ]}.
Proof.
  intros Hop. unfold toExpressionValue. simpl operator_of.
  rewrite decide_False by assumption. reflexivity.
Qed.

Lemma toExpression_other key operator rest :
  operator ≠ "between" → operator ≠ "begins_with" →
  toExpression key (EArray operator rest)
  = key +:+ " " +:+ operator +:+ " :" +:+ key.
Proof.
  intros Hb Hw. unfold toExpression. simpl operator_of.
  rewrite !decide_False by assumption. reflexivity.
Qed.

(** Compiling a record of one entry. *)
Lemma toKeyConditionExpression_single key expr :
  toKeyConditionExpression [(key, expr)]
  = {| values := toExpressionValue key expr;
       expression := toExpression key expr |}.
Proof.
  unfold toKeyConditionExpression, spread. simpl.
  by rewrite (right_id_L ∅ (∪)).
Qed.

(** One more entry at the end of the record is merged over the bindings of
    the entries before it. *)
Lemma values_snoc keys key expr :
  values (toKeyConditionExpression (keys ++ [(key, expr)]))
  = toExpressionValue key expr ∪ values (toKeyConditionExpression keys).
Proof.
  unfold toKeyConditionExpression. simpl.
  rewrite map_app, foldl_app. reflexivity.
Qed.

(** The bindings of a record are those of its first part with the entries
    of the rest spread over them in turn. *)
Lemma values_app keys keys' :
  values (toKeyConditionExpression (keys ++ keys'))
  = foldl spread (values (toKeyConditionExpression keys))
      (map (λ '(key, expr), toExpressionValue key expr) keys').
Proof.
  unfold toKeyConditionExpression. simpl. by rewrite map_app, foldl_app.
Qed.

(** Entries that do not bind [parameter] leave its binding as it is. *)
Lemma foldl_spread_unbound parameter keys (m : gmap string (JsValue number)) :
  Forall (unbound parameter) keys →
  foldl spread m (map (λ '(key, expr), toExpressionValue key expr) keys)
    !! parameter
  = m !! parameter.
Proof.
  intros Hkeys. revert m.
  induction Hkeys as [|[key expr] keys Hkey _ IH]; intros m; simpl; [done|].
  rewrite IH. unfold spread, unbound in *. simpl in Hkey.
  by rewrite lookup_union, Hkey, (left_id_L None _).
Qed.

(** What an entry binds is bound in the whole record, unless an entry after
    it binds the same parameter name. *)
Lemma values_lookup_entry before key expr after parameter bound :
  toExpressionValue key expr !! parameter = Some bound →
  Forall (unbound parameter) after →
  values (toKeyConditionExpression (before ++ (key, expr) :: after))
    !! parameter
  = Some bound.
Proof.
  intros Hbound Hafter.
  rewrite (values_app before ((key, expr) :: after)). simpl.
  rewrite foldl_spread_unbound by done.
  unfold spread. by apply lookup_union_Some_l.
Qed.

(** *** The shape of the clauses, read from their last characters *)

Lemma list_ascii_of_string_app (s1 s2 : string) :
  list_ascii_of_string (s1 +:+ s2)
  = list_ascii_of_string s1 ++ list_ascii_of_string s2.
Proof. induction s1 as [|c s1 IH]; simpl; by rewrite ?IH. Qed.

(** A list that follows a copy of [l] with [a] is not the list that puts
    another character before such a copy. *)
Lemma no_shift {A} (a b : A) (l xs ys : list A) :
  a ≠ b → l ++ a :: xs ≠ b :: l ++ a :: ys.
Proof.
  intros Hab. revert b Hab. induction l as [|c l IH]; intros b Hab; simpl.
  - congruence.
  - intros Heq. injection Heq as -> Heq. by apply (IH b Hab).
Qed.

(** Only the tag [begins_with] gives a clause of the functional form. *)
Lemma functional_form_tag name expr :
  toExpression name expr = "begins_with(" +:+ name +:+ ", :" +:+ name +:+ ")" →
  operator_of expr = "begins_with".
Proof.
  unfold toExpression. intros Heq.
  apply (f_equal (λ s, reverse (list_ascii_of_string s))) in Heq.
  repeat case_decide; [exfalso|done|exfalso];
    rewrite !list_ascii_of_string_app, !reverse_app in Heq;
    simpl in Heq; rewrite <- ?(assoc_L (++)) in Heq.
  - discriminate.
  - simpl in Heq. by apply no_shift in Heq.
Qed.

(** C7. A record with a single entry whose expression is a bare scalar
    compiles to the condition [{name} = :{name}] and to the binding of
    [:{name}] to that scalar, and nothing else. *)
Theorem C7_single_scalar_is_equality name v :
  toKeyConditionExpression [(name, EValue v)]
  = {| values := {[ ":" +:+ name := val v ]};
       expression := name +:+ " = :" +:+ name |}.
Proof.
  rewrite toKeyConditionExpression_single, toExpressionValue_scalar.
  reflexivity.
Qed.

(** C8. A [between] entry [[between, min, max]] for the attribute [name]
    emits the clause [{name} between :{name}min and :{name}max] and binds
    [:{name}min] to [min] and [:{name}max] to [max], whatever the two
    values are: as the clause and bindings of the entry, as the whole
    result when the record holds that entry alone, and inside any record,
    where the clause stands at the place of the entry and each of the two
    bindings is there as long as no entry after it synthesises that same
    parameter name. *)
Theorem C8_between_clause_and_bindings name (min max : Value number) :
  let expr := EArray "between" [min; max] in
  let clause :=
    name +:+ " between :" +:+ name +:+ "min and :" +:+ name +:+ "max" in
  let bindings : gmap string (JsValue number) :=
    {[ ":" +:+ name +:+ "min" := val min;
       ":" +:+ name +:+ "max" := val max ]} in
  toExpression name expr = clause
  ∧ toExpressionValue name expr = bindings
  ∧ bindings !! (":" +:+ name +:+ "min") = Some (val min)
  ∧ bindings !! (":" +:+ name +:+ "max") = Some (val max)
  ∧ toKeyConditionExpression [(name, expr)]
    = {| values := bindings; expression := clause |}
  ∧ (∀ before after,
       expression (toKeyConditionExpression (before ++ (name, expr) :: after))
       = join " and "
           (map (λ '(key, expr), toExpression key expr) before
            ++ clause :: map (λ '(key, expr), toExpression key expr) after))
  ∧ (∀ before after,
       Forall (unbound (":" +:+ name +:+ "min")) after →
       values (toKeyConditionExpression (before ++ (name, expr) :: after))
         !! (":" +:+ name +:+ "min") = Some (val min))
  ∧ (∀ before after,
       Forall (unbound (":" +:+ name +:+ "max")) after →
       values (toKeyConditionExpression (before ++ (name, expr) :: after))
         !! (":" +:+ name +:+ "max") = Some (val max)).
Proof.
  intros expr clause bindings.
  assert (Hv : toExpressionValue name expr = bindings)
    by apply toExpressionValue_between.
  assert (Hmin : bindings !! (":" +:+ name +:+ "min") = Some (val min))
    by apply lookup_insert_eq.
  assert (Hmax : bindings !! (":" +:+ name +:+ "max") = Some (val max)).
  { unfold bindings.
    rewrite lookup_insert_ne by apply min_max_distinct.
    apply lookup_singleton_eq. }
  split_and!; try done.
  - rewrite toKeyConditionExpression_single, Hv. reflexivity.
  - intros before after. simpl. by rewrite map_app.
  - intros before after Hafter.
    apply values_lookup_entry; [by rewrite Hv|done].
  - intros before after Hafter.
    apply values_lookup_entry; [by rewrite Hv|done].
Qed.

(** C9. A two-element array [[t, v]] whose tag [t] is neither [between]
    nor [begins_with] compiles without failing, through the default case:
    the clause is [{name} {t} :{name}], with the tag in the operator
    position, and [:{name}] is bound to the second element [v]. *)
Theorem C9_unrecognised_tag_is_used_as_operator name t v :
  t ≠ "between" → t ≠ "begins_with" →
  toExpression name (EArray t [v]) = name +:+ " " +:+ t +:+ " :" +:+ name
  ∧ toExpressionValue name (EArray t [v]) = {[ ":" +:+ name := val v ]}
  ∧ toKeyConditionExpression [(name, EArray t [v])]
    = {| values := {[ ":" +:+ name := val v ]};
         expression := name +:+ " " +:+ t +:+ " :" +:+ name |}.
Proof.
  intros Hb Hw.
  rewrite toKeyConditionExpression_single.
  rewrite toExpression_other, toExpressionValue_other by assumption.
  done.
Qed.

(** C10. The bindings of the attributes are merged left to right in the
    order of the record: compiling a record extended by one more entry
    gives the bindings of that entry laid over those of the record before
    it, so that a parameter name synthesised by both keeps the later
    value, while the condition still joins the clauses of all entries.
    With [x] a [between] and [xmin] a scalar after it, [:xmin] holds the
    scalar of [xmin] and the condition refers to both clauses. *)
Theorem C10_later_binding_overwrites_earlier :
  values (toKeyConditionExpression (number := number) []) = ∅
  ∧ (∀ keys key expr,
       values (toKeyConditionExpression (keys ++ [(key, expr)]))
       = toExpressionValue key expr ∪ values (toKeyConditionExpression keys))
  ∧ (∀ keys key expr parameter,
       values (toKeyConditionExpression (keys ++ [(key, expr)])) !! parameter
       = match toExpressionValue key expr !! parameter with
         | Some bound => Some bound
         | None => values (toKeyConditionExpression keys) !! parameter
         end)
  ∧ (∀ keys,
       expression (toKeyConditionExpression keys)
       = join " and " (map (λ '(key, expr), toExpression key expr) keys))
  ∧ (∀ lo hi mid : Value number,
       toKeyConditionExpression
         [("x", EArray "between" [lo; hi]); ("xmin", EValue mid)]
       = {| values := {[ ":xmin" := val mid; ":xmax" := val hi ]};
            expression := "x between :xmin and :xmax and xmin = :xmin" |}).
Proof.
  split_and!.
  - reflexivity.
  - apply values_snoc.
  - intros keys key expr parameter. rewrite values_snoc.
    rewrite lookup_union.
    destruct (toExpressionValue key expr !! parameter) as [bound|];
      [by rewrite union_Some_l | by rewrite (left_id_L None _)].
  - reflexivity.
  - intros lo hi mid. reflexivity.
Qed.

(** C5, as the code has it. The record [{ pk: "post2", sk: ["begins_with",
    "comment"] }] compiles to the condition [pk = :pk and begins_with(sk,
    :sk)] with [:pk] bound to ["post2"] and [:sk] to ["comment"]: the
    two-element array tagged [begins_with] is the prefix match and emits
    the functional form for every attribute name and prefix, not an
    equality; and no scalar and no array with another tag gives a clause
    of that form. *)
Theorem C5_begins_with_array_emits_functional_form :
  toKeyConditionExpression (number := number)
    [("pk", EValue (VString "post2"));
     ("sk", EArray "begins_with" [VString "comment"])]
  = {| values := {[ ":pk" := val (VString "post2");
                    ":sk" := val (VString "comment") ]};
       expression := "pk = :pk and begins_with(sk, :sk)" |}
  ∧ (∀ name (prefix : Value number),
       toExpression name (EArray "begins_with" [prefix])
       = "begins_with(" +:+ name +:+ ", :" +:+ name +:+ ")"
       ∧ toExpressionValue name (EArray "begins_with" [prefix])
         = {[ ":" +:+ name := val prefix ]})
  ∧ (∀ name expr,
       operator_of expr ≠ "begins_with" →
       toExpression name expr
       ≠ "begins_with(" +:+ name +:+ ", :" +:+ name +:+ ")").
Proof.
  split_and!.
  - reflexivity.
  - intros name prefix. split; [reflexivity|].
    by apply toExpressionValue_other.
  - intros name expr Htag Hform. by apply Htag, (functional_form_tag name).
Qed.

(** C6, as the code has it. The empty record compiles to the empty
    condition string and no bindings, through either entry point; an
    absent filter gives no bindings and an [undefined] condition, not the
    empty string. *)
Theorem C6_empty_and_absent_conditions :
  toKeyConditionExpression (number := number) []
  = {| values := ∅; expression := "" |}
  ∧ toFilterConditionExpression (number := number) (Some [])
    = {| values := ∅; expression := Some "" |}
  ∧ toFilterConditionExpression (number := number) None
    = {| values := ∅; expression := None |}.
Proof. done. Qed.

End Compiler.

(** C5 as stated fails: the compiled condition of [{ pk: "post2", sk:
    ["begins_with", "comment"] }] is not [pk = :pk and sk = :sk]. *)
Lemma C5_counterexample :
  expression
    (toKeyConditionExpression (number := Z)
       [("pk", EValue (VString "post2"));
        ("sk", EArray "begins_with" [VString "comment"])])
  ≠ "pk = :pk and sk = :sk".
Proof. discriminate. Qed.

(** C6 as stated fails: for an absent filter the result is not the one of
    the empty record, whose condition is the empty string. *)
Lemma C6_counterexample :
  toFilterConditionExpression (number := Z) None
  ≠ {| values := ∅; expression := Some "" |}
  ∧ expression (toFilterConditionExpression (number := Z) None)
    ≠ Some (expression (toKeyConditionExpression (number := Z) [])).
Proof. split; discriminate. Qed.

(** The witness of C5: the scalar ["comment"] for [sk] is not compiled to the
    functional form. *)
Lemma C5_witness :
  operator_of (number := Z) (EValue (VString "comment")) ≠ "begins_with"
  ∧ toExpression (number := Z) "sk" (EValue (VString "comment"))
    ≠ "begins_with(sk, :sk)".
Proof.
  split; [discriminate|].
  apply (proj2 (proj2 (C5_begins_with_array_emits_functional_form
                         (number := Z)))).
  discriminate.
Defined.

(** The witness of C8: [likes] between 3 and 9, after the partition key and
    before a condition on [views]. *)
Lemma C8_witness :
  let keys : Entries Z :=
    [("pk", EValue (VString "post2"));
     ("likes", EArray "between" [VNumber 3%Z; VNumber 9%Z]);
     ("views", EArray "<" [VNumber 100%Z])] in
  Forall (unbound ":likesmin") [("views", EArray "<" [VNumber 100%Z])]
  ∧ Forall (unbound ":likesmax") [("views", EArray "<" [VNumber 100%Z])]
  ∧ values (toKeyConditionExpression keys) !! ":likesmin"
    = Some (val (VNumber 3%Z))
  ∧ values (toKeyConditionExpression keys) !! ":likesmax"
    = Some (val (VNumber 9%Z)).
Proof.
  pose proof (C8_between_clause_and_bindings (number := Z)
                "likes" (VNumber 3%Z) (VNumber 9%Z)) as H.
  simpl in H. destruct H as (_ & _ & _ & _ & _ & _ & Hmin & Hmax).
  assert (Hmin' : Forall (unbound (number := Z) ":likesmin")
                    [("views", EArray "<" [VNumber 100%Z])])
    by (repeat constructor).
  assert (Hmax' : Forall (unbound (number := Z) ":likesmax")
                    [("views", EArray "<" [VNumber 100%Z])])
    by (repeat constructor).
  split_and!; [done|done| |].
  - apply (Hmin [("pk", EValue (VString "post2"))] _ Hmin').
  - apply (Hmax [("pk", EValue (VString "post2"))] _ Hmax').
Defined.

(** The witness of C9: the tag [<>] in the record [{ likes: ["<>", 3] }]. *)
Lemma C9_witness :
  toExpression (number := Z) "likes" (EArray "<>" [VNumber 3%Z])
  = "likes <> :likes"
  ∧ toExpressionValue "likes" (EArray "<>" [VNumber 3%Z])
    = {[ ":likes" := val (VNumber 3%Z) ]}
  ∧ toKeyConditionExpression [("likes", EArray "<>" [VNumber 3%Z])]
    = {| values := {[ ":likes" := val (VNumber 3%Z) ]};
         expression := "likes <> :likes" |}.
Proof.
  apply (C9_unrecognised_tag_is_used_as_operator "likes" "<>" (VNumber 3%Z));
    discriminate.
Defined.

End ExpressionsSpec.

(** * Properties of the repository *)

Module RepositorySpec.

Import Expressions Repository.

Section Validated.

Context {number Item Key Issues ServiceException Store Entropy : Type}.

Variable JSON_stringify : Key → string.

Variable this :
  Repository (number := number) (Item := Item) (Key := Key)
    (Issues := Issues) (ServiceException := ServiceException)
    (Store := Store) (Entropy := Entropy).

Implicit Types (w : World (Store := Store) (Entropy := Entropy)).
Implicit Types (items : list Item) (g : Entropy).
Implicit Types
  (iterator k : AsyncGenerator (Item := Item) (Issues := Issues)
                  (ServiceException := ServiceException)
                  (Store := Store) (Entropy := Entropy)).
Implicit Types
  (paginator : Paginator (Item := Item)
                 (ServiceException := ServiceException) (Store := Store)).

Lemma set_entropy_same w : set_entropy (entropy w) w = w.
Proof. by destruct w. Qed.

(** Running a generator to its end is resuming it once and going on from
    what it hands back. *)
Lemma consume_resume iterator w :
  consume iterator w
  = match resume iterator w with
    | IterReturn w' =>
        {| yielded := []; completion := Returned; final := w' |}
    | IterThrow e w' =>
        {| yielded := []; completion := Threw e; final := w' |}
    | IterYield value w' rest =>
        let t := consume rest w' in
        {| yielded := value :: yielded t;
           completion := completion t;
           final := final t |}
    end.
Proof. by destruct iterator. Qed.

Lemma parse_schema data w :
  parse this data w
  = match schema this data (entropy w) with
    | (inl issues, g) => (inl (ZodError issues), set_entropy g w)
    | (inr output, g) => (inr output, set_entropy g w)
    end.
Proof. reflexivity. Qed.

(** The inner loop yields the validated items of the page and then goes on
    with what follows, unless an item is rejected. *)
Lemma consume_for_of items k w :
  let t := consume (for_of this items k) w in
  match validate_each this items (entropy w) with
  | (outputs, Some issues, g) =>
      yielded t = outputs ∧ completion t = Threw (ZodError issues)
  | (outputs, None, g) =>
      let t' := consume k (set_entropy g w) in
      yielded t = outputs ++ yielded t' ∧ completion t = completion t'
  end.
Proof.
  revert w. induction items as [|item items IH]; intros w; simpl.
  - by rewrite set_entropy_same.
  - rewrite parse_schema.
    destruct (schema this item (entropy w)) as [[issues|output] g']; simpl.
    + done.
    + specialize (IH (set_entropy g' w)). simpl in IH.
      destruct (validate_each this items g') as [[outputs [issues|]] g''];
        simpl in *.
      * destruct IH as [-> ->]. done.
      * destruct IH as [-> ->]. done.
Qed.

Lemma validate_each_app items items' g :
  validate_each this (items ++ items') g
  = match validate_each this items g with
    | (outputs, Some issues, g') => (outputs, Some issues, g')
    | (outputs, None, g') =>
        let '(outputs', rejection, g'') := validate_each this items' g' in
        (outputs ++ outputs', rejection, g'')
    end.
Proof.
  revert g. induction items as [|item items IH]; intros g; simpl.
  - by destruct (validate_each this items' g) as [[? ?] ?].
  - destruct (schema this item g) as [[issues|output] g']; [done|].
    rewrite IH.
    destruct (validate_each this items g') as [[outputs [issues|]] g''];
      [done|].
    by destruct (validate_each this items' g'') as [[? ?] ?].
Qed.

(** The outputs of [validate_each] are the validated forms of the first
    items, one for one. *)
Lemma validate_each_validated items g :
  Forall2 (validated this)
    (take (length (validate_each this items g).1.1) items)
    (validate_each this items g).1.1.
Proof.
  revert g. induction items as [|item items IH]; intros g; simpl.
  - constructor.
  - destruct (schema this item g) as [[issues|output] g'] eqn:Hs; simpl.
    + constructor.
    + specialize (IH g').
      destruct (validate_each this items g') as [[outputs rejection] g''].
      simpl in *. constructor; [by exists g, g'|done].
Qed.

(** The outer loop over the pages yields the validated sequence. *)
Lemma consume_for_await paginator :
  ∀ w,
    let t := consume (for_await this paginator) w in
    (yielded t, completion t) = validated_sequence this paginator w.
Proof.
  induction paginator as [next IH| | |Items s rest IH]
    using Paginator_mut
    with (P0 := λ r,
            match r with
            | Page _ _ rest =>
                ∀ w, let t := consume (for_await this rest) w in
                     (yielded t, completion t)
                     = validated_sequence this rest w
            | _ => True
            end); try done.
  intros w. unfold validated_sequence. simpl.
  specialize (IH (store w)).
  destruct (next (store w)) as [s|e s|Items s rest]; simpl.
  - done.
  - done.
  - rewrite <- consume_resume.
    pose proof (consume_for_of (default [] Items) (for_await this rest)
                  (set_store s w)) as Hpage.
    simpl in Hpage.
    destruct (raw_items rest s) as [items e] eqn:Hraw.
    rewrite validate_each_app.
    destruct (validate_each this (default [] Items) (entropy w))
      as [[outputs [issues|]] g].
    + by destruct Hpage as [-> ->].
    + destruct Hpage as [-> ->].
      specialize (IH (set_entropy g (set_store s w))). simpl in IH.
      unfold validated_sequence in IH. simpl in IH. rewrite Hraw in IH.
      destruct (validate_each this items g) as [[outputs' rejection] g'].
      by injection IH as -> ->.
Qed.

Lemma await_ok {A} (call : Store → (ServiceException + A) * Store) w x s :
  call (store w) = (inr x, s) →
  await (Issues := Issues) call w = (inr x, set_store s w).
Proof. unfold await. by intros ->. Qed.

(** C1. Whatever an operation hands to the caller has passed the bound
    schema. A value returned by [put] is the schema's output for the
    argument; a value returned by [get] is the schema's output for the raw
    item the lookup fetched; [query] and [scan], iterated over the pages of
    their paginator, yield one for one the schema's outputs for the first raw
    items, and at the first item the schema rejects the iteration throws that
    [ZodError], with the items yielded before it still yielded. *)
Theorem C1_only_validated_items_are_returned :
  (∀ data w, validated_result this data (put this data w).1)
  ∧ (∀ key w,
       match (get JSON_stringify this key w).1 with
       | inr item =>
           ∃ raw s,
             dynamodb_get (dynamodb this)
               {| get_TableName := tableName this; get_Key := key |} (store w)
             = (inr (Some raw), s)
             ∧ validated this raw item
       | inl _ => True
       end)
  ∧ (∀ keys params,
       validates_before_yielding this (query this keys params)
         (paginateQuery (dynamodb this)
            {| query_TableName := tableName this;
               KeyConditionExpression :=
                 expression (toKeyConditionExpression keys);
               ExpressionAttributeValues :=
                 values (toKeyConditionExpression keys);
               IndexName := params ≫= index |}))
  ∧ validates_before_yielding this (scan this)
      (paginateScan (dynamodb this) {| scan_TableName := tableName this |}).
Proof.
  assert (Hseq : ∀ paginator,
            validates_before_yielding this (for_await this paginator) paginator).
  { intros paginator w. pose proof (consume_for_await paginator w) as Ht.
    simpl in *. split; [done|].
    unfold validated_sequence in Ht.
    destruct (raw_items paginator (store w)) as [items e].
    pose proof (validate_each_validated items (entropy w)) as Hv.
    destruct (validate_each this items (entropy w)) as [[outputs r] g].
    injection Ht as -> _. done. }
  split_and!.
  - intros data w. unfold put, bind. rewrite parse_schema.
    destruct (schema this data (entropy w)) as [[issues|output] g] eqn:Hs;
      [done|].
    unfold await, ret.
    destruct (dynamodb_put _ _ _) as [[e|[]] s]; simpl; [done|].
    by exists (entropy w), g.
  - intros key w. unfold get, bind, await.
    destruct (dynamodb_get _ _ _) as [[e|[raw|]] s] eqn:Hget; simpl; try done.
    rewrite parse_schema. simpl.
    destruct (schema this raw (entropy w)) as [[issues|output] g] eqn:Hs;
      [done|].
    simpl. exists raw, s. split; [done|]. by exists (entropy w), g.
  - intros keys params. apply Hseq.
  - apply Hseq.
Qed.

(** C2, as the code has it. Over a storage that shows a write to the lookup
    that follows it: when [data] is valid, with validated form [parsed], the
    write of [parsed] is accepted, and the schema gives [parsed] back
    unchanged when it validates it again, then [put data] returns [parsed]
    and [get] of the key attributes of [parsed] returns [parsed] as well. *)
Theorem C2_put_then_get_round_trip
    (keyOf : Item → Key) data w parsed g s1 :
  read_your_writes (dynamodb this) keyOf →
  schema this data (entropy w) = (inr parsed, g) →
  dynamodb_put (dynamodb this)
    {| put_Item := parsed; put_TableName := tableName this |} (store w)
  = (inr (), s1) →
  (schema this parsed g).1 = inr parsed →
  ∃ w1 w2,
    put this data w = (inr parsed, w1)
    ∧ get JSON_stringify this (keyOf parsed) w1 = (inr parsed, w2).
Proof.
  intros Hryw Hvalid Hput Hagain.
  destruct (Hryw _ _ _ _ Hput) as [s2 Hget].
  exists {| store := s1; entropy := g |}.
  destruct (schema this parsed g) as [r g2] eqn:Hs.
  exists {| store := s2; entropy := g2 |}.
  split.
  - unfold put, bind. rewrite parse_schema, Hvalid.
    by rewrite (await_ok _ (set_entropy g w) _ _ Hput).
  - unfold get, bind. simpl.
    rewrite (await_ok _ {| store := s1; entropy := g |} _ _ Hget).
    rewrite parse_schema. simpl. rewrite Hs.
    simpl in Hagain. by subst r.
Qed.

(** C3. When the schema rejects the argument of [put] with [issues], [put]
    throws a [ZodError] carrying those [issues] and the store is as it was:
    whatever the document client is, it has not been called. *)
Theorem C3_rejected_put_writes_nothing data w issues g :
  schema this data (entropy w) = (inl issues, g) →
  put this data w = (inl (ZodError issues), set_entropy g w)
  ∧ store (put this data w).2 = store w.
Proof.
  intros Hs. unfold put, bind. rewrite parse_schema, Hs. done.
Qed.

(** C4. When the lookup finds no item for the key, [get] throws a
    [NotFoundError] whose message names the table and the key looked up; it
    does not return a value. *)
Theorem C4_get_of_absent_key_is_NotFoundError key w s :
  dynamodb_get (dynamodb this)
    {| get_TableName := tableName this; get_Key := key |} (store w)
  = (inr None, s) →
  get JSON_stringify this key w
  = (inl (NotFoundError ("Item not found in " +:+ tableName this
                         +:+ " for keys " +:+ JSON_stringify key)),
     set_store s w).
Proof.
  intros Hget. unfold get, bind. by rewrite (await_ok _ _ _ _ Hget).
Qed.

End Validated.

(** ** On the tables in memory *)

Import InMemory.

Lemma document_read_your_writes : read_your_writes document keyOf.
Proof.
  intros table item s s1 Hput. simpl in *. unfold mem_put in Hput.
  simpl in Hput. case_decide; [|discriminate].
  injection Hput as <-. eexists. unfold mem_get. simpl.
  unfold has_key at 1. simpl. by rewrite bool_decide_eq_true_2.
Qed.

(** A scan over [torn_table] hands [post5] to the consumer and then throws
    at the torn row; [post6], on the next page, is never reached, and
    [toArray] rejects. *)
Example scan_of_torn_table :
  yielded (consume (scan posts) torn_table) = [post5]
  ∧ completion (consume (scan posts) torn_table) = Threw (ZodError ["likes"])
  ∧ (toArray (scan posts) torn_table).1 = inl (ZodError ["likes"]).
Proof. by vm_compute. Qed.

(** The witness of C2: [post5] goes through the schema of the posts
    unchanged, is stored, and is read back. *)
Lemma C2_witness :
  ∃ w1 w2,
    put posts post5 empty_world = (inr post5, w1)
    ∧ get JSON_stringify posts (keyOf post5) w1 = (inr post5, w2).
Proof.
  apply (C2_put_then_get_round_trip JSON_stringify posts keyOf
           post5 empty_world post5 () [("repository", post5)]).
  - apply document_read_your_writes.
  - vm_compute. reflexivity.
  - vm_compute. reflexivity.
  - vm_compute. reflexivity.
Defined.

(** C2 as stated fails. The storage shows each write to the next lookup and
    [home_page] is valid for the schema of the pages, whose transform counts
    a view; [put] returns the page with one view and [get] of its key
    returns it with two. *)
Lemma C2_counterexample :
  read_your_writes document keyOf
  ∧ ∃ parsed w1,
      (schema pages home_page ()).1 = inr parsed
      ∧ put pages home_page empty_world = (inr parsed, w1)
      ∧ ∃ other,
          (get JSON_stringify pages (keyOf parsed) w1).1 = inr other
          ∧ parsed !! "views" = Some (VNumber 1%Z)
          ∧ other !! "views" = Some (VNumber 2%Z)
          ∧ other ≠ parsed.
Proof.
  split; [apply document_read_your_writes|].
  eexists _, _. split; [vm_compute; reflexivity|].
  split; [vm_compute; reflexivity|].
  eexists. split; [vm_compute; reflexivity|].
  split; [vm_compute; reflexivity|].
  split; [vm_compute; reflexivity|].
  intros Heq. apply (f_equal (λ item : Item, item !! "views")) in Heq.
  vm_compute in Heq. discriminate.
Qed.

(** The witness of C3: [draft] lacks [likes]; the store keeps its one post. *)
Lemma C3_witness :
  schema posts draft (entropy one_post) = (inl ["likes"], ())
  ∧ put posts draft one_post = (inl (ZodError ["likes"]), one_post)
  ∧ store (put posts draft one_post).2 = [("repository", post5)].
Proof.
  split; [vm_compute; reflexivity|].
  apply (C3_rejected_put_writes_nothing posts draft one_post ["likes"] ()).
  vm_compute. reflexivity.
Defined.

(** The witness of C4: no post is stored yet. *)
Lemma C4_witness :
  get JSON_stringify posts (keyOf post5) empty_world
  = (inl (NotFoundError ("Item not found in repository for keys "
                         +:+ JSON_stringify (keyOf post5))),
     empty_world).
Proof.
  apply (C4_get_of_absent_key_is_NotFoundError JSON_stringify posts
           (keyOf post5) empty_world []).
  vm_compute. reflexivity.
Defined.

End RepositorySpec.

(** * More on the expression compiler *)

Module ExpressionsMore.

Import Expressions ExpressionsSpec.

Section Compiler.

Context {number : Type}.

Implicit Types (key name : string) (expr : Expression number).
Implicit Types (keys : Entries number) (v : Value number).
Implicit Types (rest : list (Value number)).

Lemma string_app_assoc (s1 s2 s3 : string) :
  (s1 +:+ s2) +:+ s3 = s1 +:+ s2 +:+ s3.
Proof.
  induction s1 as [|c s1 IH]; [done|].
  change (String c ((s1 +:+ s2) +:+ s3) = String c (s1 +:+ s2 +:+ s3)).
  by rewrite IH.
Qed.

Lemma join_cons sep part parts :
  parts ≠ [] → join sep (part :: parts) = part +:+ sep +:+ join sep parts.
Proof. by destruct parts. Qed.

Lemma join_app sep (parts parts' : list string) :
  parts ≠ [] → parts' ≠ [] →
  join sep (parts ++ parts') = join sep parts +:+ sep +:+ join sep parts'.
Proof.
  intros Hparts Hparts'.
  induction parts as [|part parts IH]; [done|].
  destruct parts as [|part' parts].
  - simpl app. by rewrite join_cons.
  - rewrite <- app_comm_cons.
    rewrite !join_cons by done. rewrite IH by done.
    by rewrite !string_app_assoc.
Qed.

(** Spreading a list of bindings over [m] is laying the merge of the list
    over [m]. *)
Lemma foldl_spread_union (l : list (gmap string (JsValue number))) m :
  foldl spread m l = foldl spread ∅ l ∪ m.
Proof.
  revert m. induction l as [|current l IH]; intros m; simpl.
  - by rewrite (left_id_L ∅ (∪)).
  - rewrite IH, (IH (spread ∅ current)). unfold spread.
    by rewrite (right_id_L ∅ (∪)), (assoc_L (∪)).
Qed.

(** X1. Compiling two records one after the other: the condition of the
    concatenation is the conjunction of the two conditions, when neither
    record is empty, and the bindings are those of the second record laid
    over those of the first. *)
Theorem X1_compile_concatenation keys keys' :
  (keys ≠ [] → keys' ≠ [] →
   expression (toKeyConditionExpression (keys ++ keys'))
   = expression (toKeyConditionExpression keys) +:+ " and "
     +:+ expression (toKeyConditionExpression keys'))
  ∧ values (toKeyConditionExpression (keys ++ keys'))
    = values (toKeyConditionExpression keys')
      ∪ values (toKeyConditionExpression keys).
Proof.
  split.
  - intros Hkeys Hkeys'. simpl. rewrite map_app.
    apply join_app; by destruct keys, keys'.
  - rewrite values_app. apply foldl_spread_union.
Qed.

(** The clause of an entry is made of its name and operator tag alone. *)
Lemma toExpression_tag key expr expr' :
  operator_of expr = operator_of expr' →
  toExpression key expr = toExpression key expr'.
Proof. unfold toExpression. by intros ->. Qed.

(** X2. No value reaches the condition string: two records with the same
    attribute names and the same operator tags, in the same order, compile
    to the same condition, whatever values they carry. *)
Theorem X2_condition_is_independent_of_values keys keys' :
  map (λ entry, (entry.1, operator_of entry.2)) keys
  = map (λ entry, (entry.1, operator_of entry.2)) keys' →
  expression (toKeyConditionExpression keys)
  = expression (toKeyConditionExpression keys').
Proof.
  intros Hsame. simpl. f_equal.
  revert keys' Hsame.
  induction keys as [|[key expr] keys IH]; intros [|[key' expr'] keys'] Hsame;
    try done.
  simpl in *. injection Hsame as -> Htag Hsame.
  by rewrite (toExpression_tag _ _ _ Htag), (IH _ Hsame).
Qed.

(** The parameter names an entry synthesises. *)
Lemma toExpressionValue_names key expr parameter (bound : JsValue number) :
  toExpressionValue key expr !! parameter = Some bound →
  parameter = ":" +:+ key
  ∨ parameter = ":" +:+ key +:+ "min"
  ∨ parameter = ":" +:+ key +:+ "max".
Proof.
  unfold toExpressionValue. case_decide.
  - intros [[<- _]|[_ [[<- _]|[_ ?]]%lookup_insert_Some]]%lookup_insert_Some;
      [auto|auto|done].
  - intros [<- _]%lookup_singleton_Some. auto.
Qed.

(** Where a binding of the result comes from. *)
Lemma binding_origin keys parameter (bound : JsValue number) :
  values (toKeyConditionExpression keys) !! parameter = Some bound →
  ∃ key expr,
    (key, expr) ∈ keys ∧ toExpressionValue key expr !! parameter = Some bound.
Proof.
  induction keys as [|[key expr] keys IH] using rev_ind; [done|].
  rewrite values_snoc, lookup_union_Some_raw.
  intros [Hlast|[_ Hbefore]].
  - exists key, expr. split; [|done].
    apply elem_of_app. right. by apply list_elem_of_singleton.
  - destruct (IH Hbefore) as (key' & expr' & Hin & Hbound).
    exists key', expr'. split; [|done]. apply elem_of_app. by left.
Qed.

(** X3. Every binding of the result comes from an entry of the record: a
    parameter bound to a value is bound to it by some entry, and its name is
    [:] followed by the name of that entry, with [min] or [max] after it
    when the entry is a [between]. *)
Theorem X3_bindings_come_from_entries keys parameter (bound : JsValue number) :
  values (toKeyConditionExpression keys) !! parameter = Some bound →
  ∃ key expr,
    (key, expr) ∈ keys
    ∧ toExpressionValue key expr !! parameter = Some bound
    ∧ (parameter = ":" +:+ key
       ∨ parameter = ":" +:+ key +:+ "min"
       ∨ parameter = ":" +:+ key +:+ "max").
Proof.
  intros (key & expr & Hin & Hbound)%binding_origin.
  exists key, expr. split_and!; [done|done|].
  by eapply toExpressionValue_names.
Qed.

(** X4. The compiler reads at most two elements after the tag and never
    fails on an array that is too short: what is missing is bound as
    [undefined], and what is beyond is ignored. *)
Theorem X4_short_and_long_arrays key operator rest :
  toExpressionValue key (EArray operator rest)
  = toExpressionValue key (EArray operator (take 2 rest))
  ∧ toExpression key (EArray operator rest)
    = toExpression key (EArray operator ([] : list (Value number)))
  ∧ toExpressionValue key (EArray operator ([] : list (Value number)))
    = (if decide (operator = "between")
       then {[ ":" +:+ key +:+ "min" := undefined;
               ":" +:+ key +:+ "max" := undefined ]}
       else {[ ":" +:+ key := undefined ]})
  ∧ ∀ v,
      toExpressionValue key (EArray "between" [v])
      = {[ ":" +:+ key +:+ "min" := val v;
           ":" +:+ key +:+ "max" := undefined ]}.
Proof.
  assert (Helem : ∀ i, (1 ≤ i ≤ 2)%nat →
            element (take 2 rest) i = element rest i).
  { intros i Hi. unfold element. by rewrite lookup_take_lt by lia. }
  split_and!.
  - unfold toExpressionValue. simpl. by rewrite !Helem by lia.
  - by apply toExpression_tag.
  - case_decide as Hop.
    + subst operator. by rewrite toExpressionValue_between.
    + by rewrite toExpressionValue_other.
  - intros v. by rewrite toExpressionValue_between.
Qed.

(** An entry that is not a [between] binds [:] and its name, nothing
    else. *)
Lemma toExpressionValue_not_between key expr :
  operator_of expr ≠ "between" →
  toExpressionValue key expr = {[ ":" +:+ key := value_of expr ]}.
Proof. intros Hop. unfold toExpressionValue. by rewrite decide_False. Qed.

(** X5. Without a [between], attributes with distinct names do not collide:
    each entry of the record has its parameter [:{name}] bound to its own
    value, and the result has as many bindings as the record has
    entries. *)
Theorem X5_distinct_names_bind_their_own_values keys :
  NoDup keys.*1 →
  Forall (λ entry, operator_of entry.2 ≠ "between") keys →
  (∀ key expr,
     (key, expr) ∈ keys →
     values (toKeyConditionExpression keys) !! (":" +:+ key)
     = Some (value_of expr))
  ∧ size (values (toKeyConditionExpression keys)) = length keys.
Proof.
  induction keys as [|[key expr] keys IH] using rev_ind.
  { intros _ _. split; [|done]. intros key expr Hin. by apply elem_of_nil in Hin. }
  rewrite fmap_app, NoDup_app, Forall_app, !Forall_singleton.
  intros (Hnodup & Hfresh & _) [Hkeys Hop].
  destruct (IH Hnodup Hkeys) as [IHlookup IHsize].
  pose proof (values_snoc keys key expr) as Hsnoc.
  rewrite toExpressionValue_not_between in Hsnoc by done.
  rewrite <- insert_union_singleton_l in Hsnoc.
  assert (Hnew : values (toKeyConditionExpression keys) !! (":" +:+ key)
                 = None).
  { destruct (values (toKeyConditionExpression keys) !! (":" +:+ key))
      as [bound|] eqn:Hbound; [exfalso|done].
    apply binding_origin in Hbound as (key' & expr' & Hin & Hbound').
    rewrite toExpressionValue_not_between in Hbound'.
    - apply lookup_singleton_Some in Hbound' as [Heq%(inj _) _].
      subst key'. apply (Hfresh key); [|by apply list_elem_of_singleton].
      apply list_elem_of_fmap. by exists (key, expr').
    - by apply (proj1 (Forall_forall _ _) Hkeys (key', expr')). }
  rewrite Hsnoc. split.
  - intros key' expr' [Hin|Hlast%list_elem_of_singleton]%elem_of_app.
    + rewrite lookup_insert_ne; [by apply IHlookup|].
      intros Heq%(inj _). subst key'.
      apply (Hfresh key); [|by apply list_elem_of_singleton].
      apply list_elem_of_fmap. by exists (key, expr').
    + injection Hlast as -> ->. apply lookup_insert_eq.
  - rewrite map_size_insert_None by done.
    rewrite IHsize, length_app. simpl. lia.
Qed.

(** One more parameter at the end of the record is set over the hash built
    so far. *)
Lemma toExpressionAttributeValues_snoc {A}
    (params : list (string * A)) key value :
  toExpressionAttributeValues (params ++ [(key, value)])
  = <[ ":" +:+ key := value ]> (toExpressionAttributeValues params).
Proof.
  unfold toExpressionAttributeValues. by rewrite map_app, foldl_app.
Qed.

(** X6. [toExpressionAttributeValues] on a record, whose property names are
    distinct: a name is bound in the result exactly when it is [:] followed
    by a property of the record, and it is bound to the value of that
    property. *)
Theorem X6_attribute_values_lookup {A}
    (params : list (string * A)) parameter value :
  NoDup params.*1 →
  toExpressionAttributeValues params !! parameter = Some value
  ↔ ∃ key, parameter = ":" +:+ key ∧ (key, value) ∈ params.
Proof.
  induction params as [|[key value'] params IH] using rev_ind.
  { intros _. split; [done|]. intros (key & _ & Hin).
    by apply elem_of_nil in Hin. }
  rewrite fmap_app, NoDup_app. intros (Hnodup & Hfresh & _).
  rewrite toExpressionAttributeValues_snoc, lookup_insert_Some.
  rewrite (IH Hnodup). split.
  - intros [[<- <-]|[_ (key' & -> & Hin)]].
    + exists key. split; [done|]. apply elem_of_app. right.
      by apply list_elem_of_singleton.
    + exists key'. split; [done|]. apply elem_of_app. by left.
  - intros (key' & -> & [Hin|Hlast%list_elem_of_singleton]%elem_of_app).
    + right. split; [|by exists key'].
      intros Heq%(inj _). subst key'.
      apply (Hfresh key); [|by apply list_elem_of_singleton].
      apply list_elem_of_fmap. by exists (key, value).
    + injection Hlast as -> ->. by left.
Qed.

(** X7. The two ways to bindings agree on a record of bare scalars: what
    [toKeyConditionExpression] binds for it is what
    [toExpressionAttributeValues] builds from the same properties. *)
Theorem X7_scalar_bindings_are_attribute_values
    (params : list (string * Value number)) :
  values (toKeyConditionExpression
            (map (λ '(key, v), (key, EValue v)) params))
  = val <$> toExpressionAttributeValues params.
Proof.
  induction params as [|[key v] params IH] using rev_ind; [done|].
  rewrite map_app. simpl map.
  rewrite values_snoc, toExpressionValue_scalar, IH.
  rewrite toExpressionAttributeValues_snoc, fmap_insert.
  by rewrite insert_union_singleton_l.
Qed.

End Compiler.

(** The witness of X1: the condition on a post joined with the one on its
    likes. *)
Lemma X1_witness :
  expression
    (toKeyConditionExpression (number := Z)
       ([("pk", EValue (VString "post2"))]
        ++ [("likes", EArray ">=" [VNumber 3%Z])]))
  = "pk = :pk" +:+ " and " +:+ "likes >= :likes".
Proof.
  apply (proj1 (X1_compile_concatenation (number := Z)
                  [("pk", EValue (VString "post2"))]
                  [("likes", EArray ">=" [VNumber 3%Z])])); discriminate.
Defined.

(** The witness of X2: the comments of two posts are asked for with one
    condition. *)
Lemma X2_witness :
  expression
    (toKeyConditionExpression (number := Z)
       [("pk", EValue (VString "post1"));
        ("sk", EArray "begins_with" [VString "comment"])])
  = expression
      (toKeyConditionExpression (number := Z)
         [("pk", EValue (VString "post2"));
          ("sk", EArray "begins_with" [VString "c"; VNumber 7%Z])]).
Proof.
  apply (X2_condition_is_independent_of_values (number := Z)
           [("pk", EValue (VString "post1"));
            ("sk", EArray "begins_with" [VString "comment"])]
           [("pk", EValue (VString "post2"));
            ("sk", EArray "begins_with" [VString "c"; VNumber 7%Z])]).
  reflexivity.
Defined.

(** The witness of X3: [:likesmax] comes from the entry [likes]. *)
Lemma X3_witness :
  ∃ key expr,
    (key, expr) ∈ [("pk", EValue (VString "post2"));
                   ("likes", EArray "between" [VNumber 3%Z; VNumber 9%Z])]
    ∧ toExpressionValue key expr !! ":likesmax" = Some (val (VNumber 9%Z))
    ∧ (":likesmax" = ":" +:+ key
       ∨ ":likesmax" = ":" +:+ key +:+ "min"
       ∨ ":likesmax" = ":" +:+ key +:+ "max").
Proof.
  apply (X3_bindings_come_from_entries (number := Z)
           [("pk", EValue (VString "post2"));
            ("likes", EArray "between" [VNumber 3%Z; VNumber 9%Z])]
           ":likesmax" (val (VNumber 9%Z))).
  reflexivity.
Defined.

(** The witness of X5: the key condition of the comments of a user. *)
Lemma X5_witness :
  let keys : Entries Z :=
    [("userId", EValue (VString "user3"));
     ("sk", EArray "begins_with" [VString "comment"])] in
  values (toKeyConditionExpression keys) !! ":sk"
  = Some (val (VString "comment"))
  ∧ size (values (toKeyConditionExpression keys)) = 2%nat.
Proof.
  intros keys.
  assert (Hnodup : NoDup keys.*1).
  { apply (bool_decide_unpack _). vm_compute. exact I. }
  assert (Htags : Forall (λ entry, operator_of entry.2 ≠ "between") keys)
    by (repeat constructor; discriminate).
  destruct (X5_distinct_names_bind_their_own_values keys Hnodup Htags)
    as [Hlookup Hsize].
  split; [|exact Hsize].
  apply (Hlookup "sk" (EArray "begins_with" [VString "comment"])).
  apply elem_of_cons. right. apply elem_of_cons. by left.
Defined.

(** The witness of X6: the parameters [{ pk: 1, prefix: 2 }]. *)
Lemma X6_witness :
  toExpressionAttributeValues [("pk", 1%nat); ("prefix", 2%nat)] !! ":prefix"
  = Some 2%nat
  ↔ ∃ key, ":prefix" = ":" +:+ key
           ∧ (key, 2%nat) ∈ [("pk", 1%nat); ("prefix", 2%nat)].
Proof.
  apply (X6_attribute_values_lookup [("pk", 1%nat); ("prefix", 2%nat)]).
  apply (bool_decide_unpack _). vm_compute. exact I.
Defined.

End ExpressionsMore.

(** * More on the repository *)

Module RepositoryMore.

Import Expressions Repository RepositorySpec.

Section Methods.

Context {number Item Key Issues ServiceException Store Entropy : Type}.

Variable JSON_stringify : Key → string.

Variable this :
  Repository (number := number) (Item := Item) (Key := Key)
    (Issues := Issues) (ServiceException := ServiceException)
    (Store := Store) (Entropy := Entropy).

Implicit Types (w : World (Store := Store) (Entropy := Entropy)).
Implicit Types (items : list Item) (g : Entropy).
Implicit Types
  (iterator k : AsyncGenerator (Item := Item) (Issues := Issues)
                  (ServiceException := ServiceException)
                  (Store := Store) (Entropy := Entropy)).
Implicit Types
  (paginator rest : Paginator (Item := Item)
                      (ServiceException := ServiceException) (Store := Store)).

(** X8. [put] of a valid item calls the client once, with the validated
    form and the name of the table: when the client throws, [put] throws
    the same exception and returns nothing; otherwise it returns the
    validated form. The store is left as that one call left it. *)
Theorem X8_put_writes_the_validated_form_once data w parsed g :
  schema this data (entropy w) = (inr parsed, g) →
  put this data w
  = match dynamodb_put (dynamodb this)
            {| put_Item := parsed; put_TableName := tableName this |}
            (store w) with
    | (inl e, s) => (inl (ServiceError e), {| store := s; entropy := g |})
    | (inr _, s) => (inr parsed, {| store := s; entropy := g |})
    end.
Proof.
  intros Hvalid. unfold put, bind. rewrite (parse_schema this), Hvalid.
  unfold await, ret. simpl.
  by destruct (dynamodb_put _ _ _) as [[e|[]] s].
Qed.

(** X9. When the lookup of [get] finds an item that the schema rejects,
    [get] throws the [ZodError] with the issues of the schema: the stored
    item is not returned, and the failure is not a [NotFoundError]. When the
    client itself throws, [get] throws the same exception. *)
Theorem X9_get_of_an_item_the_schema_rejects key w :
  (∀ raw s issues g,
     dynamodb_get (dynamodb this)
       {| get_TableName := tableName this; get_Key := key |} (store w)
     = (inr (Some raw), s) →
     schema this raw (entropy w) = (inl issues, g) →
     get JSON_stringify this key w
     = (inl (ZodError issues), {| store := s; entropy := g |}))
  ∧ (∀ e s,
       dynamodb_get (dynamodb this)
         {| get_TableName := tableName this; get_Key := key |} (store w)
       = (inl e, s) →
       get JSON_stringify this key w = (inl (ServiceError e), set_store s w)).
Proof.
  split.
  - intros raw s issues g Hget Hs. unfold get, bind.
    rewrite (await_ok _ _ _ _ Hget), (parse_schema this). simpl.
    by rewrite Hs.
  - intros e s Hget. unfold get, bind, await. by rewrite Hget.
Qed.



(** X11. A page without items yields nothing: when the next page has
    [Items] undefined or empty, the iteration goes straight on to the page
    after it. [scan] and [query] are this loop over their paginators. *)
Theorem X11_empty_pages_are_skipped :
  scan this
  = for_await this
      (paginateScan (dynamodb this) {| scan_TableName := tableName this |})
  ∧ (∀ keys params,
       query this keys params
       = for_await this
           (paginateQuery (dynamodb this)
              {| query_TableName := tableName this;
                 KeyConditionExpression :=
                   expression (toKeyConditionExpression keys);
                 ExpressionAttributeValues :=
                   values (toKeyConditionExpression keys);
                 IndexName := params ≫= index |}))
  ∧ (∀ next w Items s rest,
       next (store w) = Page Items s rest →
       default [] Items = [] →
       consume (for_await this (Pages next)) w
       = consume (for_await this rest) (set_store s w)).
Proof.
  split_and!; [done|done|].
  intros next w Items s rest Hnext Hempty.
  rewrite (consume_resume (for_await this rest)).
  simpl. by rewrite Hnext, Hempty.
Qed.

(** No item rejected: every output, no rejection. *)
Lemma validate_each_accepted items g :
  (∀ item g, item ∈ items → ∃ output g', schema this item g = (inr output, g')) →
  ∃ outputs g',
    validate_each this items g = (outputs, None, g')
    ∧ length outputs = length items.
Proof.
  revert g. induction items as [|item items IH]; intros g Hok; simpl.
  - by exists [], g.
  - destruct (Hok item g) as (output & g' & ->); [by left|].
    destruct (IH g') as (outputs & g'' & -> & Hlen).
    { intros item' g0 Hin. apply Hok. by right. }
    exists (output :: outputs), g''. simpl. by rewrite Hlen.
Qed.

(** X12. When the schema accepts every raw item the pages hold, the
    iteration yields as many items as the pages hold, each the validated
    form of the raw item at its place, and ends as the paginator does: it
    returns, and [toArray] resolves with those items, unless the client
    throws while paging. [scan] and [query] are this loop over their
    paginators. *)
Theorem X12_all_items_are_yielded_when_all_are_valid paginator w :
  (∀ item g,
     item ∈ (raw_items paginator (store w)).1 →
     ∃ output g', schema this item g = (inr output, g')) →
  let t := consume (for_await this paginator) w in
  length (yielded t) = length (raw_items paginator (store w)).1
  ∧ Forall2 (validated this) (raw_items paginator (store w)).1 (yielded t)
  ∧ match (raw_items paginator (store w)).2 with
    | None =>
        completion t = Returned
        ∧ (toArray (for_await this paginator) w).1 = inr (yielded t)
    | Some e =>
        completion t = Threw (ServiceError e)
        ∧ (toArray (for_await this paginator) w).1 = inl (ServiceError e)
    end.
Proof.
  intros Hok t.
  pose proof (consume_for_await this paginator w) as Ht. simpl in Ht.
  pose proof (validate_each_validated this
                (raw_items paginator (store w)).1 (entropy w)) as Hv.
  unfold validated_sequence in Ht. unfold toArray. fold t in Ht |- *.
  destruct (raw_items paginator (store w)) as [items e]. simpl in *.
  destruct (validate_each_accepted items (entropy w) Hok)
    as (outputs & g' & Hall & Hlen).
  rewrite Hall in Ht, Hv. simpl in Hv.
  injection Ht as Hy Hc. rewrite Hy, Hc.
  rewrite Hlen, firstn_all in Hv.
  split_and!; [done|done|]. by destruct e.
Qed.

(** X13. Pages are requested on demand. Resuming the loop at a page whose
    first item is valid requests that one page, validates that one item and
    suspends with it; and resuming in the middle of a page validates the
    next item of the page and leaves the store alone, so that no page is
    requested before the last one is used up. *)
Theorem X13_pages_are_requested_on_demand :
  (∀ next w item items s rest parsed g,
     next (store w) = Page (Some (item :: items)) s rest →
     schema this item (entropy w) = (inr parsed, g) →
     resume (for_await this (Pages next)) w
     = IterYield parsed {| store := s; entropy := g |}
         (for_of this items (for_await this rest)))
  ∧ (∀ item items k w,
       match resume (for_of this (item :: items) k) w with
       | IterYield _ w' rest => store w' = store w ∧ rest = for_of this items k
       | IterThrow _ w' => store w' = store w
       | IterReturn _ => False
       end).
Proof.
  split.
  - intros next w item items s rest parsed g Hnext Hs. simpl.
    rewrite Hnext. simpl. rewrite (parse_schema this). simpl. by rewrite Hs.
  - intros item items k w. simpl. rewrite (parse_schema this).
    by destruct (schema this item (entropy w)) as [[issues|output] g].
Qed.

End Methods.

(** ** On the tables in memory *)

Import InMemory Scenarios.

(** The witness of X8: the note is valid, and the table refuses an item
    without a key. *)
Lemma X8_witness :
  put notes note empty_world
  = (inl (ServiceError "ValidationException"), empty_world).
Proof.
  rewrite (X8_put_writes_the_validated_form_once notes note empty_world
             note ()); vm_compute; reflexivity.
Defined.

(** The witness of X9: the torn row is found and rejected. *)
Lemma X9_witness :
  get JSON_stringify posts (keyOf torn_row) torn_table
  = (inl (ZodError ["likes"]), torn_table).
Proof.
  apply (proj1 (X9_get_of_an_item_the_schema_rejects JSON_stringify posts
                  (keyOf torn_row) torn_table)
           torn_row (store torn_table) ["likes"] ());
    vm_compute; reflexivity.
Defined.


(** The witness of X11: the scan of an empty table gets one empty page. *)
Lemma X11_witness :
  consume (for_await posts (Pages first_request)) empty_world
  = consume (for_await posts (serve [])) empty_world.
Proof.
  apply (proj2 (proj2 (X11_empty_pages_are_skipped posts))
           first_request empty_world (Some []) [] (serve []));
    reflexivity.
Defined.

(** The witness of X12: both posts of the table are yielded. *)
Lemma X12_witness :
  let t := consume (for_await posts scan_pages) two_posts in
  length (yielded t) = 2%nat
  ∧ Forall2 (validated posts) [post5; post6] (yielded t)
  ∧ completion t = Returned
  ∧ (toArray (for_await posts scan_pages) two_posts).1 = inr (yielded t).
Proof.
  apply (X12_all_items_are_yielded_when_all_are_valid posts scan_pages
           two_posts).
  intros item [] Hin.
  change (item ∈ [post5; post6]) in Hin.
  apply elem_of_cons in Hin as [->|Hin];
    [|apply list_elem_of_singleton in Hin as ->];
    eexists _, _; vm_compute; reflexivity.
Defined.

(** The witness of X13: the first resumption of a scan of the two posts. *)
Lemma X13_witness :
  resume (for_await posts (Pages first_request)) two_posts
  = IterYield post5 two_posts
      (for_of posts [post6] (for_await posts (serve [[]]))).
Proof.
  apply (proj1 (X13_pages_are_requested_on_demand posts)
           first_request two_posts post5 [post6] (store two_posts)
           (serve [[]]) post5 ()); vm_compute; reflexivity.
Defined.

End RepositoryMore.

(** * Properties of the examples *)

Module ExamplesSpec.

Import Expressions Repository RepositorySpec Examples.

Section Zod.

Context {number Entropy : Type}.

Local Abbreviation Item := (gmap string (Value number)).

Implicit Types (shape : list (string * ZodProperty (number := number)
                                         (Entropy := Entropy))).
Implicit Types (data output item : Item) (g : Entropy).

Variable is_number : number → bool.

Lemma parse_property_present (property : ZodProperty) (v : Value number) g :
  has_type is_number (property_type property) v = true →
  parse_property is_number property (Some v) g = (Some v, g).
Proof. unfold parse_property. simpl. by intros ->. Qed.

Lemma parse_property_has_type
    (property : ZodProperty) (input : option (Value number)) g v g' :
  parse_property is_number property input g = (Some v, g') →
  has_type is_number (property_type property) v = true.
Proof.
  unfold parse_property.
  destruct input as [v0|], (property_default property) as [d|]; simpl;
    try destruct (d g) as [v1 g1]; repeat case_match; naive_solver.
Qed.

(** The shape reads the properties it names and no other. *)
Lemma parse_shape_ext shape data data' g :
  (∀ name, name ∈ shape.*1 → data !! name = data' !! name) →
  parse_shape is_number shape data g = parse_shape is_number shape data' g.
Proof.
  revert g. induction shape as [|[name property] shape IH]; intros g Hsame;
    [done|].
  simpl. rewrite <- (Hsame name) by (by left).
  destruct (parse_property is_number property (data !! name) g) as [v g1].
  rewrite IH; [done|]. intros name' Hin. apply Hsame. by right.
Qed.

(** An output without issues has every property of the shape, of its
    type. *)
Lemma parse_shape_output shape data g output g' :
  NoDup shape.*1 →
  parse_shape is_number shape data g = ([], output, g') →
  ∀ name property,
    (name, property) ∈ shape →
    ∃ v, output !! name = Some v ∧ has_type is_number (property_type property) v = true.
Proof.
  revert g output. induction shape as [|[name property] shape IH];
    intros g output Hnodup Hparse name' property' Hin.
  { by apply elem_of_nil in Hin. }
  simpl in *. apply NoDup_cons in Hnodup as [Hfresh Hnodup].
  destruct (parse_property is_number property (data !! name) g) as [[v|] g1] eqn:Hp;
    destruct (parse_shape is_number shape data g1) as [[issues output'] g2] eqn:Hrest;
    [|done].
  injection Hparse as -> <- <-.
  apply elem_of_cons in Hin as [Heq|Hin].
  - injection Heq as -> ->. exists v. rewrite lookup_insert_eq.
    split; [done|]. by eapply parse_property_has_type.
  - destruct (IH _ _ Hnodup Hrest _ _ Hin) as (v' & Hv' & Ht).
    exists v'. split; [|done]. rewrite lookup_insert_ne; [done|].
    intros ->. apply Hfresh, list_elem_of_fmap. by exists (name', property').
Qed.

(** An output without issues goes through the shape again unchanged, and
    no default is drawn. *)
Lemma parse_shape_fixed shape data g output g' :
  NoDup shape.*1 →
  parse_shape is_number shape data g = ([], output, g') →
  ∀ g1, parse_shape is_number shape output g1 = ([], output, g1).
Proof.
  revert g output. induction shape as [|[name property] shape IH];
    intros g output Hnodup Hparse g1.
  { simpl in *. by injection Hparse as <- _. }
  simpl in *. apply NoDup_cons in Hnodup as [Hfresh Hnodup].
  destruct (parse_property is_number property (data !! name) g) as [[v|] g2] eqn:Hp;
    destruct (parse_shape is_number shape data g2) as [[issues output'] g3] eqn:Hrest;
    [|done].
  injection Hparse as -> <- <-.
  rewrite lookup_insert_eq, parse_property_present
    by (by eapply parse_property_has_type).
  rewrite (parse_shape_ext shape _ output').
  - by rewrite (IH _ _ Hnodup Hrest g1).
  - intros name' Hin. apply lookup_insert_ne. by intros ->.
Qed.

Lemma lookup_assign_eq name (v : Value number) item :
  assign name (Some v) item !! name = Some v.
Proof. apply lookup_insert_eq. Qed.

Lemma lookup_assign_ne name name' (v : option (Value number)) item :
  name ≠ name' → assign name v item !! name' = item !! name'.
Proof.
  intros Hne. destruct v; simpl;
    [by apply lookup_insert_ne | by apply lookup_delete_ne].
Qed.

(** A transform that leaves the properties of the shape as they are gives
    a schema that accepts its own outputs unchanged. *)
Lemma z_transform_fixed shape (f : Item → Item) data g item g' :
  NoDup shape.*1 →
  (∀ output name, name ∈ shape.*1 → f output !! name = output !! name) →
  z_transform (z_object is_number shape) f data g = (inr item, g') →
  ∀ g1, z_transform (z_object is_number shape) f item g1 = (inr item, g1).
Proof.
  intros Hnodup Hf. unfold z_transform, z_object.
  destruct (parse_shape is_number shape data g) as [[issues output] g2] eqn:Hparse.
  destruct issues as [|issue issues]; [|done].
  intros Heq g1. injection Heq as <- <-.
  rewrite (parse_shape_ext shape _ output) by (intros; by apply Hf).
  by rewrite (parse_shape_fixed _ _ _ _ _ Hnodup Hparse).
Qed.

(** What a transformed object schema accepts comes from an output of the
    shape. *)
Lemma z_transform_output shape (f : Item → Item) data g item g' :
  z_transform (z_object is_number shape) f data g = (inr item, g') →
  ∃ output, parse_shape is_number shape data g = ([], output, g') ∧ item = f output.
Proof.
  unfold z_transform, z_object.
  destruct (parse_shape is_number shape data g) as [[issues output] g2] eqn:Hparse.
  destruct issues as [|issue issues]; [|done].
  intros Heq. injection Heq as <- <-. by exists output.
Qed.

End Zod.

Section Schemas.

Context {number ServiceException Store Entropy : Type}.

Local Abbreviation Item := (gmap string (Value number)).
Local Abbreviation Key := (list (string * Value number)).
Local Abbreviation Document :=
  (DynamoDBDocument (number := number) (Item := Item) (Key := Key)
     (ServiceException := ServiceException) (Store := Store)).

Variable JSON_stringify : Key → string.
Variable is_number : number → bool.
Variable Number_toString : number → string.
Variable uuid : Entropy → string * Entropy.

Implicit Types (data item : Item) (g : Entropy).
Implicit Types (w : World (Store := Store) (Entropy := Entropy)).

Lemma has_type_string (v : Value number) :
  has_type is_number z_string v = true → ∃ s, v = VString s.
Proof. destruct v; [eauto|done|done]. Qed.

Local Ltac names_distinct :=
  simpl; apply (bool_decide_unpack _); vm_compute; exact I.

Local Ltac in_shape :=
  simpl; repeat first [by left | right].

(** A string property [name] of the shape, in an output without issues. *)
Local Ltac string_property Hparse name s Hs :=
  let v := fresh "v" in
  let Ht := fresh "Ht" in
  let Hnd := fresh "Hnd" in
  match type of Hparse with
  | parse_shape _ ?shape _ _ = _ =>
      assert (Hnd : NoDup shape.*1) by names_distinct;
      edestruct (parse_shape_output _ _ _ _ _ _ Hnd Hparse name)
        as (v & Hs & Ht); [in_shape|];
      clear Hnd;
      apply has_type_string in Ht as [s ->]
  end.

(** X14. The schemas of the examples derive the primary key of what they
    accept: a post has [pk] its [postId] and [sk] [post], a comment has [pk]
    its [postId] and [sk] [comment#] followed by its [commentId], and a
    user has [pk] its [userId] and [sk] [user]; the ids are strings. *)
Theorem X14_schemas_derive_the_primary_key data g item g' :
  (KeyTransforms.PostSchema is_number uuid data g = (inr item, g') →
   ∃ postId,
     item !! "postId" = Some (VString postId)
     ∧ primary_key item
       = [("pk", VString postId); ("sk", VString "post")])
  ∧ (KeyTransforms.CommentSchema is_number Number_toString uuid data g
     = (inr item, g') →
     ∃ postId commentId,
       item !! "postId" = Some (VString postId)
       ∧ item !! "commentId" = Some (VString commentId)
       ∧ primary_key item
         = [("pk", VString postId);
            ("sk", VString ("comment#" +:+ commentId))])
  ∧ (Users.UserSchema is_number uuid data g = (inr item, g') →
     ∃ userId,
       item !! "userId" = Some (VString userId)
       ∧ primary_key item
         = [("pk", VString userId); ("sk", VString "user")]).
Proof.
  split_and!.
  - intros (output & Hparse & ->)%z_transform_output.
    string_property Hparse "postId" postId Hid.
    exists postId. rewrite Hid. unfold primary_key. simpl.
    rewrite !lookup_insert_eq, !lookup_insert_ne by done.
    by rewrite !lookup_insert_eq.
  - intros (output & Hparse & ->)%z_transform_output.
    string_property Hparse "postId" postId Hid.
    string_property Hparse "commentId" commentId Hcid.
    exists postId, commentId. rewrite Hid, Hcid. unfold primary_key. simpl.
    rewrite !lookup_insert_eq, !lookup_insert_ne by done.
    by rewrite !lookup_insert_eq.
  - intros (output & Hparse & ->)%z_transform_output.
    string_property Hparse "userId" userId Hid.
    exists userId. rewrite Hid. unfold primary_key. simpl.
    rewrite !lookup_insert_eq, !lookup_insert_ne by done.
    by rewrite !lookup_insert_eq.
Qed.

Local Ltac keeps_shape :=
  let output := fresh "output" in
  let name := fresh "name" in
  let Hin := fresh "Hin" in
  intros output name Hin; simpl in Hin;
  repeat (apply elem_of_cons in Hin as [->|Hin]);
  [by rewrite !lookup_assign_ne by done ..|by apply elem_of_nil in Hin].

(** X15. The schemas of the examples accept what they have put out and
    give it back unchanged, drawing no new id: validating a stored post,
    comment or user again changes nothing. *)
Theorem X15_schemas_accept_their_outputs_unchanged data g item g' g1 :
  (KeyTransforms.PostSchema is_number uuid data g = (inr item, g') →
   KeyTransforms.PostSchema is_number uuid item g1 = (inr item, g1))
  ∧ (KeyTransforms.CommentSchema is_number Number_toString uuid data g
     = (inr item, g') →
     KeyTransforms.CommentSchema is_number Number_toString uuid item g1
     = (inr item, g1))
  ∧ (Users.UserSchema is_number uuid data g = (inr item, g') →
     Users.UserSchema is_number uuid item g1 = (inr item, g1)).
Proof.
  split_and!; intros Hparse;
    (eapply z_transform_fixed; [names_distinct|keeps_shape|exact Hparse]).
Qed.

(** [put] and then [get] of a key under which the client shows the item,
    for an item the schema gives back unchanged. *)
Lemma put_then_get
    (this : Repository (number := number) (Item := Item) (Key := Key)
              (Issues := list string) (ServiceException := ServiceException)
              (Store := Store) (Entropy := Entropy))
    key data w parsed g s1 s2 :
  schema this data (entropy w) = (inr parsed, g) →
  dynamodb_put (dynamodb this)
    {| put_Item := parsed; put_TableName := Repository.tableName this |}
    (store w)
  = (inr (), s1) →
  dynamodb_get (dynamodb this)
    {| get_TableName := Repository.tableName this; get_Key := key |} s1
  = (inr (Some parsed), s2) →
  schema this parsed g = (inr parsed, g) →
  put this data w = (inr parsed, {| store := s1; entropy := g |})
  ∧ get JSON_stringify this key {| store := s1; entropy := g |}
    = (inr parsed, {| store := s2; entropy := g |}).
Proof.
  intros Hvalid Hput Hget Hagain. split.
  - unfold put, bind. rewrite (parse_schema this), Hvalid.
    by rewrite (await_ok _ (set_entropy g w) _ _ Hput).
  - unfold get, bind.
    rewrite (await_ok _ {| store := s1; entropy := g |} _ _ Hget).
    rewrite (parse_schema this). simpl. by rewrite Hagain.
Qed.

(** X16. Posts round trip through their id. Over a table that shows a
    write to the lookup of its primary key: when the schema of the posts
    accepts [data], with [item] as the result, and the write of [item] is
    accepted, [put] returns [item], which carries a [postId], and [getPost]
    of that [postId] returns [item]. *)
Theorem X16_put_then_getPost (dynamodb : Document) data w item g s1 :
  let this := KeyTransforms.PostsRepository is_number uuid dynamodb in
  read_your_writes dynamodb primary_key →
  KeyTransforms.PostSchema is_number uuid data (entropy w) = (inr item, g) →
  dynamodb_put dynamodb
    {| put_Item := item; put_TableName := "repository" |} (store w)
  = (inr (), s1) →
  ∃ postId w1 w2,
    item !! "postId" = Some (VString postId)
    ∧ put this data w = (inr item, w1)
    ∧ KeyTransforms.getPost JSON_stringify this postId w1 = (inr item, w2).
Proof.
  intros this Hryw Hvalid Hput.
  destruct (Hryw _ _ _ _ Hput) as [s2 Hget].
  pose proof Hvalid as (output & Hparse & Hitem)%z_transform_output.
  string_property Hparse "postId" postId Hid.
  assert (Hkey : primary_key item
                 = [("pk", VString postId); ("sk", VString "post")]).
  { rewrite Hitem, Hid. unfold primary_key. simpl.
    rewrite !lookup_insert_eq, !lookup_insert_ne by done.
    by rewrite !lookup_insert_eq. }
  assert (Hpost : item !! "postId" = Some (VString postId)).
  { rewrite Hitem, Hid. simpl. by rewrite !lookup_insert_ne by done. }
  rewrite Hkey in Hget.
  assert (Hagain : KeyTransforms.PostSchema is_number uuid item g = (inr item, g)).
  { eapply z_transform_fixed; [names_distinct|keeps_shape|exact Hvalid]. }
  destruct (put_then_get this _ data w item g s1 s2 Hvalid Hput Hget Hagain)
    as [Hp Hg].
  by eexists postId, _, _.
Qed.

Lemma parse_shape_cons name (property : ZodProperty)
    (shape : list (string * ZodProperty (number := number)
                               (Entropy := Entropy)))
    data g :
  parse_shape is_number ((name, property) :: shape) data g
  = let '(v, g) := parse_property is_number property (data !! name) g in
    let '(issues, output, g) := parse_shape is_number shape data g in
    match v with
    | Some v => (issues, <[ name := v ]> output, g)
    | None => (name :: issues, output, g)
    end.
Proof. reflexivity. Qed.

(** A shape without defaults draws nothing. *)
Lemma parse_shape_required
    (shape : list (string * ZodProperty (number := number)
                               (Entropy := Entropy)))
    data g :
  Forall (λ entry, property_default entry.2 = None) shape →
  (parse_shape is_number shape data g).2 = g.
Proof.
  intros Hreq. revert g.
  induction Hreq as [|[name property] shape Hnone _ IH]; intros g; [done|].
  simpl in *. unfold parse_property. rewrite Hnone.
  assert (Hsame : ∀ input : option (Value number),
            (let '(input, g0) :=
               match input with
               | Some _ | _ => (input, g)
               end in
             match input with
             | Some v => if has_type is_number (property_type property) v
                         then (Some v, g0) else (None, g0)
             | None => (None, g0)
             end).2 = g).
  { intros [v|]; simpl; [by destruct (has_type _ _)|done]. }
  specialize (Hsame (data !! name)).
  destruct (let '(input, g0) := _ in _) as [v g1]. simpl in Hsame. subst g1.
  specialize (IH g).
  destruct (parse_shape is_number shape data g) as [[issues output] g2].
  simpl in IH. subst g2. by destruct v.
Qed.

(** X17. A post is created or updated by its [postId]. When the schema of
    the posts accepts [data]: if [data] has a [postId], the result keeps it
    and no id is drawn; if it has none, one id is drawn from [uuid] and the
    result has it as its [postId]. *)
Theorem X17_postId_is_kept_or_drawn data g item g' :
  KeyTransforms.PostSchema is_number uuid data g = (inr item, g') →
  match data !! "postId" with
  | Some v => item !! "postId" = Some v ∧ g' = g
  | None =>
      item !! "postId" = Some (VString (uuid g).1) ∧ g' = (uuid g).2
  end.
Proof.
  intros (output & Hparse & ->)%z_transform_output.
  assert (Hid : ∀ v, output !! "postId" = Some v →
            assign "sk" (Some (VString "post"))
              (assign "pk" (output !! "postId") output) !! "postId"
            = Some v).
  { intros v Hv. by rewrite !lookup_assign_ne by done. }
  rewrite parse_shape_cons in Hparse.
  destruct (parse_property _ _ (data !! "postId") g) as [v1 g1] eqn:Hp.
  match type of Hparse with
  | context [parse_shape _ ?shape data g1] =>
      pose proof (parse_shape_required shape data g1) as Hg;
      destruct (parse_shape is_number shape data g1) as [[issues output'] g2]
  end.
  simpl in Hg. rewrite Hg in Hparse by (repeat constructor).
  destruct v1 as [v1|]; [|discriminate Hparse]. injection Hparse as -> <- <-.
  unfold parse_property, default_uuid in Hp. simpl in Hp.
  destruct (data !! "postId") as [v|].
  - destruct v as [s|n|b]; [|discriminate Hp..].
    injection Hp as <- <-. split; [|done]. apply Hid, lookup_insert_eq.
  - destruct (uuid g) as [id g0]. simpl in *.
    injection Hp as <- <-. split; [|done]. apply Hid, lookup_insert_eq.
Qed.


(** X19. The named queries of the examples, whatever the id: the comments
    of a post are asked for with [pk = :pk and begins_with(sk, :sk)] on the
    table; the comments and the posts of a user with [userId = :userId and
    begins_with(sk, :sk)] and [userId = :userId and sk = :sk] on the index
    [ByUser]; the id and the prefix or type go in as bound values. *)
Theorem X19_named_queries (dynamodb : Document) (id : string) :
  let posts := CaptureLogic.PostsRepository (Entropy := Entropy) is_number dynamodb in
  let keyed := KeyTransforms.PostsRepository is_number uuid dynamodb in
  CaptureLogic.getCommentsByPostId posts id
  = for_await posts
      (paginateQuery dynamodb
         {| query_TableName := "repository";
            KeyConditionExpression := "pk = :pk and begins_with(sk, :sk)";
            ExpressionAttributeValues :=
              {[ ":pk" := val (VString id);
                 ":sk" := val (VString "comment") ]};
            IndexName := None |})
  ∧ CaptureLogic.getCommentsByUserId posts id
    = for_await posts
        (paginateQuery dynamodb
           {| query_TableName := "repository";
              KeyConditionExpression :=
                "userId = :userId and begins_with(sk, :sk)";
              ExpressionAttributeValues :=
                {[ ":userId" := val (VString id);
                   ":sk" := val (VString "comment") ]};
              IndexName := Some "ByUser" |})
  ∧ KeyTransforms.getPostsByUserId keyed id
    = for_await keyed
        (paginateQuery dynamodb
           {| query_TableName := "repository";
              KeyConditionExpression := "userId = :userId and sk = :sk";
              ExpressionAttributeValues :=
                {[ ":userId" := val (VString id);
                   ":sk" := val (VString "post") ]};
              IndexName := Some "ByUser" |}).
Proof. done. Qed.

End Schemas.

(** ** On the tables in memory *)

Import InMemory Scenarios.

(** The witness of X14: the new post gets the first id and its key. *)
Lemma X14_witness :
  ∃ postId,
    stored_post !! "postId" = Some (VString postId)
    ∧ primary_key stored_post
      = [("pk", VString postId); ("sk", VString "post")].
Proof.
  apply (proj1 (X14_schemas_derive_the_primary_key all_numbers decimal next_id
                  new_post 0%nat stored_post 1%nat)).
  vm_compute. reflexivity.
Defined.

(** The witness of X15: the stored post goes through the schema again. *)
Lemma X15_witness :
  KeyTransforms.PostSchema all_numbers next_id stored_post 7%nat
  = (inr stored_post, 7%nat).
Proof.
  apply (proj1 (X15_schemas_accept_their_outputs_unchanged all_numbers decimal next_id
                  new_post 0%nat stored_post 1%nat 7%nat)).
  vm_compute. reflexivity.
Defined.

(** The witness of X16: the new post is stored and read back by its id. *)
Lemma X16_witness :
  ∃ postId w1 w2,
    stored_post !! "postId" = Some (VString postId)
    ∧ put (KeyTransforms.PostsRepository all_numbers next_id document) new_post
        fresh_world
      = (inr stored_post, w1)
    ∧ KeyTransforms.getPost JSON_stringify
        (KeyTransforms.PostsRepository all_numbers next_id document) postId w1
      = (inr stored_post, w2).
Proof.
  apply (X16_put_then_getPost JSON_stringify all_numbers next_id document new_post
           fresh_world stored_post 1%nat [("repository", stored_post)]).
  - exact document_read_your_writes.
  - vm_compute. reflexivity.
  - vm_compute. reflexivity.
Defined.

(** The witness of X17: the new post has no [postId] and gets the first
    id. *)
Lemma X17_witness :
  stored_post !! "postId" = Some (VString (next_id 0%nat).1)
  ∧ 1%nat = (next_id 0%nat).2.
Proof.
  apply (X17_postId_is_kept_or_drawn all_numbers next_id new_post 0%nat stored_post
           1%nat).
  vm_compute. reflexivity.
Defined.


End ExamplesSpec.
